(** * SpecificEvent: challenge status, countdown, stats and auto-refresh

    A shallow embedding of the logic of the [SpecificEvent] page component
    (event detail view): [getChallengeStatus], [getCountdown], the [stats]
    memo, [getFilterCounts], [getFilteredChallenges], the clock tick and the
    auto-refresh effect.

    Conventions of the embedding.
    - A JavaScript [Date] is represented by its time value, an integer
      number of milliseconds ([Z]).  The challenge fields [releaseTime] and
      [endTime] hold the time value of [new Date(challenge.releaseTime)] and
      [new Date(challenge.endTime)]; comparing two dates with [<] or [>]
      compares their time values.  Timestamps that do not parse are outside
      the model: the specification leaves them to the data provider.
    - JavaScript strings are byte strings (UTF-8 encoded literals).
    - The [points] of a challenge are integers ([Z]), and their sums are
      exact: the model covers integer points whose sums stay within the
      range where the additions of JavaScript numbers are exact.
    - The React state of the component is the record [State]; a function of
      the component body that closes over state takes the state as its first
      argument.  The auto-refresh effect reads the clock itself
      ([new Date()]), so it takes that instant as an argument.
    - Definitions that follow the wording of the specification rather than
      the source ([classify], [candidate_spec], [nextBoundary_spec]) are
      kept apart and say so. *)

From Stdlib Require Import ZArith String Ascii List Decimal DecimalString Lia.
From stdpp Require Import base option list strings gmap sorting.

Local Open Scope string_scope.
Local Open Scope Z_scope.

(** ** Data transfer objects *)

Inductive ChallengeType := TEMPORARY | PERMANENT | RACE.
Inductive Reward := REDBULL | PIZZA | SNACK.

Record Category := { category_id : Z; category_name : string }.

Record Game := { game_id : Z; game_name : string; game_link : string }.

Record Challenge := {
  id : Z;
  title : string;
  description : string;
  points : Z;
  type : ChallengeType;
  reward : Reward;
  releaseTime : Z;
  endTime : Z;
  game : Game;
  categories : list Category;
  isCompleted : bool;
  completedAt : option Z
}.

Record EventInfo := {
  name : string;
  event_description : string;
  startDate : Z;
  endDate : Z;
  duration : Z
}.

Record EventDetails := {
  event_id : Z;
  eventInfo : EventInfo;
  challenges : list Challenge
}.

Inductive ChallengeFilter :=
  FilterAll | FilterActive | FilterUpcoming | FilterCompleted | FilterExpired.

(** [challenge.type !== 'PERMANENT'] *)
Definition isPermanent (t : ChallengeType) : bool :=
  match t with PERMANENT => true | _ => false end.

(** ** Component state (the [useState] hooks of [SpecificEvent]) *)

Record State := {
  eventDetails : option EventDetails;
  loading : bool;
  error : option string;
  statusFilter : ChallengeFilter;
  searchTerm : string;
  refreshKey : Z;
  currentTime : Z
}.

(** ** getChallengeStatus *)

Record StatusInfo := {
  status : string;
  status_color : string;
  bgColor : string;
  icon : string
}.

Definition getChallengeStatus (st : State) (challenge : Challenge) : StatusInfo :=
  let now := currentTime st in
  let releaseTime := releaseTime challenge in
  let endTime := endTime challenge in
  if isCompleted challenge then
    {| status := "completed"; status_color := "#00ff88";
       bgColor := "rgba(0, 255, 136, 0.1)"; icon := "✅" |}
  else if now <? releaseTime then
    {| status := "upcoming"; status_color := "#ffd700";
       bgColor := "rgba(255, 215, 0, 0.1)"; icon := "⏳" |}
  else if (now >? endTime) && negb (isPermanent (type challenge)) then
    {| status := "expired"; status_color := "#ff4444";
       bgColor := "rgba(255, 68, 68, 0.1)"; icon := "⏰" |}
  else
    {| status := "active"; status_color := "#00ff88";
       bgColor := "rgba(0, 255, 136, 0.1)"; icon := "🔥" |}.

(** ** getCountdown *)

Record Countdown := { text : string; color : string }.

(** Rendering of a number inside a template literal. *)
Definition Number_toString (n : Z) : string :=
  NilZero.string_of_int (Z.to_int n).

(** [differenceInSeconds] of date-fns: the difference of the time values in
    seconds, truncated towards zero. *)
Definition differenceInSeconds (dateLeft dateRight : Z) : Z :=
  Z.quot (dateLeft - dateRight) 1000.

(** The four lines computing [days], [hours], [minutes] and [seconds] from
    [diff]; [Math.floor(a / b)] is floor division, [%] the truncated
    remainder. *)
Definition days_of (diff : Z) : Z := diff / 86400.
Definition hours_of (diff : Z) : Z := Z.rem diff 86400 / 3600.
Definition minutes_of (diff : Z) : Z := Z.rem diff 3600 / 60.
Definition seconds_of (diff : Z) : Z := Z.rem diff 60.

Definition getCountdown (st : State) (challenge : Challenge) : Countdown :=
  let now := currentTime st in
  let releaseTime := releaseTime challenge in
  let endTime := endTime challenge in
  if isCompleted challenge then
    {| text := "Complété"; color := "#00ff88" |}
  else if now <? releaseTime then
    let diff := differenceInSeconds releaseTime now in
    let days := days_of diff in
    let hours := hours_of diff in
    let minutes := minutes_of diff in
    let seconds := seconds_of diff in
    if days >? 0 then
      {| text := "Démarre dans " +:+ Number_toString days +:+ "j "
                 +:+ Number_toString hours +:+ "h";
         color := "#ffd700" |}
    else if hours >? 0 then
      {| text := "Démarre dans " +:+ Number_toString hours +:+ "h "
                 +:+ Number_toString minutes +:+ "m";
         color := "#ffd700" |}
    else if minutes >? 0 then
      {| text := "Démarre dans " +:+ Number_toString minutes +:+ "m "
                 +:+ Number_toString seconds +:+ "s";
         color := "#ffd700" |}
    else
      {| text := "Démarre dans " +:+ Number_toString seconds +:+ "s";
         color := "#ffd700" |}
  else if isPermanent (type challenge) then
    {| text := "Permanent"; color := "#00ff88" |}
  else if now >? endTime then
    {| text := "Expiré"; color := "#ff4444" |}
  else
    let diff := differenceInSeconds endTime now in
    let days := days_of diff in
    let hours := hours_of diff in
    let minutes := minutes_of diff in
    let seconds := seconds_of diff in
    if diff <=? 0 then
      {| text := "Expiré"; color := "#ff4444" |}
    else if days >? 0 then
      {| text := Number_toString days +:+ "j " +:+ Number_toString hours
                 +:+ "h restantes";
         color := "#00ff88" |}
    else if hours >? 0 then
      {| text := Number_toString hours +:+ "h " +:+ Number_toString minutes
                 +:+ "m restantes";
         color := if hours <? 1 then "#ff8800" else "#00ff88" |}
    else if minutes >? 0 then
      {| text := Number_toString minutes +:+ "m " +:+ Number_toString seconds
                 +:+ "s restantes";
         color := if minutes <? 10 then "#ff4444" else "#ff8800" |}
    else
      {| text := Number_toString seconds +:+ "s restantes";
         color := "#ff4444" |}.

(** ** The [stats] memo *)

Record Stats := {
  totalChallenges : Z;
  completedChallenges : Z;
  totalPoints : Z;
  earnedPoints : Z;
  activeChallenges : Z;
  upcomingChallenges : Z;
  expiredChallenges : Z
}.

(** Body of the [forEach] callback; [acc] holds the [let] counters. *)
Definition stats_step (now : Z) (acc : Stats) (challenge : Challenge) : Stats :=
  let totalPoints' := totalPoints acc + points challenge in
  let releaseTime := releaseTime challenge in
  let endTime := endTime challenge in
  if isCompleted challenge then
    {| totalChallenges := totalChallenges acc;
       completedChallenges := completedChallenges acc + 1;
       totalPoints := totalPoints';
       earnedPoints := earnedPoints acc + points challenge;
       activeChallenges := activeChallenges acc;
       upcomingChallenges := upcomingChallenges acc;
       expiredChallenges := expiredChallenges acc |}
  else if now <? releaseTime then
    {| totalChallenges := totalChallenges acc;
       completedChallenges := completedChallenges acc;
       totalPoints := totalPoints';
       earnedPoints := earnedPoints acc;
       activeChallenges := activeChallenges acc;
       upcomingChallenges := upcomingChallenges acc + 1;
       expiredChallenges := expiredChallenges acc |}
  else if (now >? endTime) && negb (isPermanent (type challenge)) then
    {| totalChallenges := totalChallenges acc;
       completedChallenges := completedChallenges acc;
       totalPoints := totalPoints';
       earnedPoints := earnedPoints acc;
       activeChallenges := activeChallenges acc;
       upcomingChallenges := upcomingChallenges acc;
       expiredChallenges := expiredChallenges acc + 1 |}
  else
    {| totalChallenges := totalChallenges acc;
       completedChallenges := completedChallenges acc;
       totalPoints := totalPoints';
       earnedPoints := earnedPoints acc;
       activeChallenges := activeChallenges acc + 1;
       upcomingChallenges := upcomingChallenges acc;
       expiredChallenges := expiredChallenges acc |}.

Definition stats (st : State) : Stats :=
  match eventDetails st with
  | None =>
      {| totalChallenges := 0; completedChallenges := 0; totalPoints := 0;
         earnedPoints := 0; activeChallenges := 0; upcomingChallenges := 0;
         expiredChallenges := 0 |}
  | Some eventDetails =>
      let now := currentTime st in
      fold_left (stats_step now) (challenges eventDetails)
        {| totalChallenges := Z.of_nat (length (challenges eventDetails));
           completedChallenges := 0; totalPoints := 0; earnedPoints := 0;
           activeChallenges := 0; upcomingChallenges := 0;
           expiredChallenges := 0 |}
  end.

(** ** getFilterCounts *)

(** [counts[key]++] on the [counts] object.  Every key used by
    [getFilterCounts] is a property of the object literal, so the update
    always finds its key. *)
Definition increment (key : string) (counts : gmap string Z) : gmap string Z :=
  alter Z.succ key counts.

Definition zeroCounts : gmap string Z :=
  <["all" := 0]> (<["active" := 0]> (<["upcoming" := 0]>
    (<["completed" := 0]> (<["expired" := 0]> ∅)))).

(** Body of the [forEach] callback. *)
Definition filterCounts_step (st : State) (counts : gmap string Z)
    (challenge : Challenge) : gmap string Z :=
  let counts := increment "all" counts in
  let status := status (getChallengeStatus st challenge) in
  increment status counts.

Definition getFilterCounts (st : State) : gmap string Z :=
  match eventDetails st with
  | None => zeroCounts
  | Some eventDetails =>
      fold_left (filterCounts_step st) (challenges eventDetails) zeroCounts
  end.

(** ** The auto-refresh effect *)

(** Values taken by the [nextUpdate] variable: a finite number of
    milliseconds, or [Infinity]. *)
Inductive Num := Finite (ms : Z) | Infinity.

Definition Math_min (a : Num) (b : Z) : Num :=
  match a with
  | Infinity => Finite b
  | Finite x => Finite (Z.min x b)
  end.

(** Body of the [forEach] callback of the effect; [now] is the clock read
    by [new Date()] when the effect runs. *)
Definition nextUpdate_step (now : Z) (nextUpdate : Num) (challenge : Challenge)
  : Num :=
  let releaseTime := releaseTime challenge in
  let endTime := endTime challenge in
  let currentTime := now in
  if releaseTime >? currentTime then
    Math_min nextUpdate (releaseTime - currentTime)
  else if endTime >? currentTime then
    Math_min nextUpdate (endTime - currentTime)
  else nextUpdate.

Definition nextUpdate (challenges : list Challenge) (now : Z) : Num :=
  fold_left (nextUpdate_step now) challenges Infinity.

(** The guard [nextUpdate < Infinity && nextUpdate > 0]: the delay until the
    next boundary when a refresh is to be scheduled. *)
Definition nextBoundary (challenges : list Challenge) (now : Z) : option Z :=
  match nextUpdate challenges now with
  | Finite d => if d >? 0 then Some d else None
  | Infinity => None
  end.

(** The effect itself: the delay handed to [setTimeout], if a timer is set. *)
Definition autoRefresh (st : State) (now : Z) : option Z :=
  match eventDetails st with
  | None => None
  | Some eventDetails =>
      match nextBoundary (challenges eventDetails) now with
      | Some d => Some (d + 1000)
      | None => None
      end
  end.

(** ** Sample values *)

Definition sampleGame : Game :=
  {| game_id := 1; game_name := "Tetris"; game_link := "" |}.

Definition sampleChallenge (release end_ : Z) (t : ChallengeType)
    (completed : bool) (pts : Z) : Challenge :=
  {| id := 1; title := "Sample"; description := ""; points := pts; type := t;
     reward := PIZZA; releaseTime := release; endTime := end_;
     game := sampleGame; categories := []; isCompleted := completed;
     completedAt := None |}.

Definition sampleEvent (cs : list Challenge) : EventDetails :=
  {| event_id := 1;
     eventInfo := {| name := "LAN"; event_description := ""; startDate := 0;
                     endDate := 0; duration := 0 |};
     challenges := cs |}.

Definition stateAt (now : Z) (ev : option EventDetails) : State :=
  {| eventDetails := ev; loading := false; error := None;
     statusFilter := FilterActive; searchTerm := ""; refreshKey := 0;
     currentTime := now |}.

(** ** The classification of the specification *)

Inductive ChallengeStatus := upcoming | active | completed | expired.

Definition statusName (s : ChallengeStatus) : string :=
  match s with
  | upcoming => "upcoming"
  | active => "active"
  | completed => "completed"
  | expired => "expired"
  end.

(** The priority rules of the specification, in its words: completed first,
    then upcoming before the release time, then expired for a challenge that
    is not permanent after its end time, otherwise active. *)
Definition classify (c : Challenge) (now : Z) : ChallengeStatus :=
  if isCompleted c then completed
  else if now <? releaseTime c then upcoming
  else if negb (isPermanent (type c)) && (endTime c <? now) then expired
  else active.

(** ** The refresh delay of the specification *)

(** The candidate delay of one challenge, in the words of the
    specification: the time to the release when it is still to come;
    otherwise the time to the end, only for a challenge that is not
    completed, not permanent and not past its end; otherwise none. *)
Definition candidate_spec (now : Z) (c : Challenge) : option Z :=
  if now <? releaseTime c then Some (releaseTime c - now)
  else if negb (isCompleted c) && negb (isPermanent (type c))
          && (now <=? endTime c)
  then Some (endTime c - now)
  else None.

(** The minimum of the positive candidates, [None] when there is none. *)
Fixpoint nextBoundary_spec (cs : list Challenge) (now : Z) : option Z :=
  match cs with
  | [] => None
  | c :: cs' =>
      match candidate_spec now c, nextBoundary_spec cs' now with
      | Some d, Some m => if 0 <? d then Some (Z.min d m) else Some m
      | Some d, None => if 0 <? d then Some d else None
      | None, r => r
      end
  end.

(** What the effect counts as a pending boundary of a challenge, [d]
    milliseconds ahead of [now]: its release when that is still to come,
    otherwise its end when that is still to come. *)
Definition pending (now : Z) (c : Challenge) (d : Z) : Prop :=
  (now < releaseTime c /\ d = releaseTime c - now)
  \/ (releaseTime c <= now /\ now < endTime c /\ d = endTime c - now).

(** ** Urgency of a countdown *)

(** The urgency tiers named by the specification's glossary. *)
Inductive UrgencyTier := normal | warning | critical.

(** The source signals urgency only through the colour of the countdown:
    ['#ff4444'] for the most urgent tier, ['#ff8800'] for the intermediate
    one, and ['#00ff88'] otherwise. *)
Definition urgencyTier (cd : Countdown) : UrgencyTier :=
  if String.eqb (color cd) "#ff4444" then critical
  else if String.eqb (color cd) "#ff8800" then warning
  else normal.

Definition isHexDigit (ch : ascii) : bool :=
  let n := N_of_ascii ch in
  ((48 <=? n) && (n <=? 57) || (97 <=? n) && (n <=? 102)
   || (65 <=? n) && (n <=? 70))%N.

(** A CSS colour constant of the form [#rrggbb]. *)
Definition isHexColor (s : string) : bool :=
  match s with
  | String "#" digits =>
      (Nat.eqb (String.length digits) 6)
      && forallb isHexDigit (list_ascii_of_string digits)
  | _ => false
  end.

(** ** What a countdown text displays *)

(** No minus sign occurs in a text: a negative number rendered in a template
    literal is the only source of one. *)
Fixpoint noMinus (s : string) : bool :=
  match s with
  | EmptyString => true
  | String ch s' => negb (Ascii.eqb ch "-") && noMinus s'
  end.

(** The texts of the upcoming branch. *)
Definition isUpcomingText (t : string) : bool :=
  String.prefix "Démarre dans " t.

(** ** Counting challenges by status *)

(** The number of challenges of [cs] whose status, by [getChallengeStatus],
    is [s]. *)
Fixpoint countStatus (st : State) (s : string) (cs : list Challenge) : Z :=
  match cs with
  | [] => 0
  | c :: cs' =>
      (if String.eqb (status (getChallengeStatus st c)) s then 1 else 0)
      + countStatus st s cs'
  end.

Fixpoint sumPoints (cs : list Challenge) : Z :=
  match cs with
  | [] => 0
  | c :: cs' => points c + sumPoints cs'
  end.

Fixpoint sumCompletedPoints (cs : list Challenge) : Z :=
  match cs with
  | [] => 0
  | c :: cs' =>
      (if isCompleted c then points c else 0) + sumCompletedPoints cs'
  end.

(** The challenges held by the component, none before the event is loaded. *)
Definition loadedChallenges (st : State) : list Challenge :=
  match eventDetails st with
  | Some ev => challenges ev
  | None => []
  end.

(** ** The clock tick *)

(** The interval timer: [setCurrentTime(new Date())]. *)
Definition tick (st : State) (now : Z) : State :=
  {| eventDetails := eventDetails st; loading := loading st;
     error := error st; statusFilter := statusFilter st;
     searchTerm := searchTerm st; refreshKey := refreshKey st;
     currentTime := now |}.

(** ** getFilteredChallenges *)

(** The string value of the [filter] state. *)
Definition filterName (f : ChallengeFilter) : string :=
  match f with
  | FilterAll => "all"
  | FilterActive => "active"
  | FilterUpcoming => "upcoming"
  | FilterCompleted => "completed"
  | FilterExpired => "expired"
  end.

Definition isFilterAll (f : ChallengeFilter) : bool :=
  match f with FilterAll => true | _ => false end.

(** The [priority] object of the sort callback. *)
Definition priority : gmap string Z :=
  <["active" := 0]> (<["upcoming" := 1]> (<["completed" := 2]>
    (<["expired" := 3]> ∅))).

(** [priority[status] ?? 4] *)
Definition priorityOf (st : State) (challenge : Challenge) : Z :=
  default 4 (priority !! status (getChallengeStatus st challenge)).

(** The comparator handed to [sort]: by status priority, then by release
    time. *)
Definition compareChallenges (st : State) (a b : Challenge) : Z :=
  let priorityA := priorityOf st a in
  let priorityB := priorityOf st b in
  if negb (priorityA =? priorityB) then priorityA - priorityB
  else releaseTime a - releaseTime b.

(** [Array.prototype.sort] with a comparator is a stable sort; for a
    comparator that orders the elements consistently, as the one above, its
    result is the stable insertion sort below. *)
Fixpoint insertSorted {A} (compare : A -> A -> Z) (x : A) (l : list A)
  : list A :=
  match l with
  | [] => [x]
  | y :: l' =>
      if compare x y <=? 0 then x :: y :: l'
      else y :: insertSorted compare x l'
  end.

Fixpoint Array_sort {A} (compare : A -> A -> Z) (l : list A) : list A :=
  match l with
  | [] => []
  | x :: l' => insertSorted compare x (Array_sort compare l')
  end.

(** [String.prototype.includes]: [sub] occurs in [s]. *)
Fixpoint String_includes (s sub : string) : bool :=
  match s with
  | EmptyString => String.prefix sub EmptyString
  | String _ s' => String.prefix sub s || String_includes s' sub
  end.

Section FilteredChallenges.

(** [String.prototype.toLowerCase] and [String.prototype.trim], whose
    results depend on the Unicode tables of the host. *)
Variables toLowerCase trim : string -> string.

(** The predicate of the search filter. *)
Definition matchesSearch (st : State) (challenge : Challenge) : bool :=
  String_includes (toLowerCase (game_name (game challenge)))
    (toLowerCase (searchTerm st))
  || existsb
       (fun cat =>
          String_includes (toLowerCase (category_name cat))
            (toLowerCase (searchTerm st)))
       (categories challenge).

(** The predicate of the status filter. *)
Definition matchesFilter (st : State) (challenge : Challenge) : bool :=
  String.eqb (status (getChallengeStatus st challenge))
    (filterName (statusFilter st)).

(** [searchTerm.trim()] is truthy. *)
Definition hasSearch (st : State) : bool :=
  negb (String.eqb (trim (searchTerm st)) "").

Definition getFilteredChallenges (st : State) : list Challenge :=
  match eventDetails st with
  | None => []
  | Some eventDetails =>
      let filtered := challenges eventDetails in
      let filtered :=
        if negb (isFilterAll (statusFilter st))
        then List.filter (matchesFilter st) filtered
        else filtered in
      let filtered :=
        if hasSearch st
        then List.filter (matchesSearch st) filtered
        else filtered in
      Array_sort (compareChallenges st) filtered
  end.

(** [sort] works in place.  When neither filter ran, [filtered] is the
    array held in the state, and the call leaves that array sorted; a
    filter builds a new array, and then the state is untouched. *)
Definition stateAfterFiltering (st : State) : State :=
  match eventDetails st with
  | None => st
  | Some ev =>
      if negb (isFilterAll (statusFilter st)) || hasSearch st then st
      else
        {| eventDetails :=
             Some {| event_id := event_id ev; eventInfo := eventInfo ev;
                     challenges :=
                       Array_sort (compareChallenges st) (challenges ev) |};
           loading := loading st; error := error st;
           statusFilter := statusFilter st; searchTerm := searchTerm st;
           refreshKey := refreshKey st; currentTime := currentTime st |}
  end.

End FilteredChallenges.

(** ** Keys and addresses built from the route parameter *)

(** The local-storage key of an event: [`event-${id}-details`]. *)
Definition cacheKey (id : string) : string := "event-" +:+ id +:+ "-details".

(** A lower-casing of the letters A to Z, used for sample runs. *)
Definition asciiLower (s : string) : string :=
  string_of_list_ascii
    (List.map
       (fun ch =>
          let n := N_of_ascii ch in
          if ((65 <=? n) && (n <=? 90))%N then ascii_of_N (n + 32) else ch)
       (list_ascii_of_string s)).

(** * Properties of getChallengeStatus *)

Lemma isPermanent_true t : isPermanent t = true <-> t = PERMANENT.
Proof. destruct t; simpl; split; congruence. Qed.

Lemma isPermanent_false t : isPermanent t = false <-> t <> PERMANENT.
Proof. destruct t; simpl; split; congruence. Qed.

(** Case analysis on every integer comparison of the goal. *)
Ltac decide_tests :=
  repeat match goal with
         | |- context [Z.ltb ?a ?b] => destruct (Z.ltb_spec a b)
         | |- context [Z.gtb ?a ?b] =>
             rewrite (Z.gtb_ltb a b); destruct (Z.ltb_spec b a)
         | |- context [Z.leb ?a ?b] => destruct (Z.leb_spec a b)
         end.

(** The source function computes the classification of the
    specification. *)
Lemma status_classify st c :
  status (getChallengeStatus st c) = statusName (classify c (currentTime st)).
Proof.
  unfold getChallengeStatus, classify.
  destruct (isCompleted c); [ | destruct (isPermanent (type c)) ];
    decide_tests; simpl; (reflexivity || lia).
Qed.

(** What the status active means for a challenge that is not permanent. *)
Lemma active_inv st c :
  status (getChallengeStatus st c) = "active" ->
  type c <> PERMANENT ->
  isCompleted c = false /\ releaseTime c <= currentTime st <= endTime c.
Proof.
  intros Hact Hty. apply isPermanent_false in Hty.
  unfold getChallengeStatus in Hact. rewrite Hty in Hact. revert Hact.
  destruct (isCompleted c); [ discriminate | ].
  decide_tests; simpl; try discriminate. intros _. split; [ reflexivity | lia ].
Qed.

(** C1: for every challenge and every instant, [getChallengeStatus] returns
    the status given by the priority rules applied in order (completed, then
    upcoming, then expired for a non-permanent challenge past its end, then
    active); it is defined for every input, whatever the order of the two
    timestamps, and a completed challenge is always classified completed. *)
Theorem getChallengeStatus_classify :
  forall (st : State) (c : Challenge),
    status (getChallengeStatus st c) = statusName (classify c (currentTime st))
    /\ status (getChallengeStatus st c)
         ∈ ["completed"; "upcoming"; "expired"; "active"]
    /\ (if isCompleted c
        then status (getChallengeStatus st c) = "completed"
        else status (getChallengeStatus st c) <> "completed").
Proof.
  intros st c. rewrite status_classify. split; [ reflexivity | ].
  unfold classify.
  destruct (isCompleted c);
    [ | destruct (currentTime st <? releaseTime c);
        [ | destruct (negb (isPermanent (type c))
                      && (endTime c <? currentTime st)) ] ];
    simpl; (split; [ set_solver | congruence ]).
Qed.

(** C2 (as amended): for every challenge that is neither permanent nor
    completed and whose timestamps are ordered ([releaseTime <= endTime]),
    the status is upcoming at any instant strictly before the release time,
    active at the release time, active at the end time, and expired at any
    instant strictly after the end time. *)
Theorem status_boundaries_inclusive :
  forall (st : State) (c : Challenge),
    type c <> PERMANENT ->
    isCompleted c = false ->
    releaseTime c <= endTime c ->
    (currentTime st < releaseTime c ->
       status (getChallengeStatus st c) = "upcoming")
    /\ (currentTime st = releaseTime c ->
          status (getChallengeStatus st c) = "active")
    /\ (currentTime st = endTime c ->
          status (getChallengeStatus st c) = "active")
    /\ (endTime c < currentTime st ->
          status (getChallengeStatus st c) = "expired").
Proof.
  intros st c Hty Hdone Hord. apply isPermanent_false in Hty.
  unfold getChallengeStatus. rewrite Hdone, Hty.
  repeat split; intros Hnow; decide_tests; simpl; (reflexivity || lia).
Qed.

Lemma status_boundaries_inclusive_witness :
  let c := sampleChallenge 100 200 TEMPORARY false 10 in
  status (getChallengeStatus (stateAt 99 None) c) = "upcoming"
  /\ status (getChallengeStatus (stateAt 100 None) c) = "active"
  /\ status (getChallengeStatus (stateAt 200 None) c) = "active"
  /\ status (getChallengeStatus (stateAt 201 None) c) = "expired".
Proof.
  intros c.
  assert (Hty : type c <> PERMANENT) by (simpl; discriminate).
  assert (Hdone : isCompleted c = false) by reflexivity.
  assert (Hord : releaseTime c <= endTime c) by (simpl; lia).
  split; [ | split; [ | split ] ].
  - destruct (status_boundaries_inclusive (stateAt 99 None) c Hty Hdone Hord)
      as (H & _). apply H. simpl; lia.
  - destruct (status_boundaries_inclusive (stateAt 100 None) c Hty Hdone Hord)
      as (_ & H & _). apply H. reflexivity.
  - destruct (status_boundaries_inclusive (stateAt 200 None) c Hty Hdone Hord)
      as (_ & _ & H & _). apply H. reflexivity.
  - destruct (status_boundaries_inclusive (stateAt 201 None) c Hty Hdone Hord)
      as (_ & _ & _ & H). apply H. simpl; lia.
Defined.

(** C2 as stated fails when the timestamps are inverted: a temporary,
    non-completed challenge released at 10 and ending at 5 is expired, not
    active, at its release time, and upcoming, not active, at its end time. *)
Lemma status_boundaries_inverted :
  let c := sampleChallenge 10 5 TEMPORARY false 10 in
  type c <> PERMANENT
  /\ isCompleted c = false
  /\ currentTime (stateAt 10 None) = releaseTime c
  /\ status (getChallengeStatus (stateAt 10 None) c) = "expired"
  /\ status (getChallengeStatus (stateAt 10 None) c) <> "active"
  /\ currentTime (stateAt 5 None) = endTime c
  /\ status (getChallengeStatus (stateAt 5 None) c) = "upcoming"
  /\ status (getChallengeStatus (stateAt 5 None) c) <> "active".
Proof. simpl. repeat split; discriminate. Qed.

(** C3: a challenge of type PERMANENT is never classified expired. *)
Theorem permanent_never_expired :
  forall (st : State) (c : Challenge),
    type c = PERMANENT ->
    status (getChallengeStatus st c) <> "expired".
Proof.
  intros st c Hty. apply isPermanent_true in Hty.
  unfold getChallengeStatus. rewrite Hty, andb_false_r.
  destruct (isCompleted c); [ | destruct (currentTime st <? releaseTime c) ];
    simpl; discriminate.
Qed.

Lemma permanent_never_expired_witness :
  status (getChallengeStatus (stateAt 1000 None)
            (sampleChallenge 0 10 PERMANENT false 5)) <> "expired".
Proof.
  apply (permanent_never_expired (stateAt 1000 None)
           (sampleChallenge 0 10 PERMANENT false 5)).
  reflexivity.
Defined.

(** C8: the status and the countdown are functions of the challenge and of
    the current time only: two component states that agree on [currentTime]
    give, for the same challenge, the same status record and the same
    countdown, whatever the rest of the state holds. *)
Theorem status_countdown_deterministic :
  forall (st1 st2 : State) (c1 c2 : Challenge),
    currentTime st1 = currentTime st2 ->
    c1 = c2 ->
    getChallengeStatus st1 c1 = getChallengeStatus st2 c2
    /\ getCountdown st1 c1 = getCountdown st2 c2.
Proof.
  intros st1 st2 c1 c2 Hnow ->.
  unfold getChallengeStatus, getCountdown. rewrite Hnow. split; reflexivity.
Qed.

Lemma status_countdown_deterministic_witness :
  let c := sampleChallenge 0 7200000 RACE false 5 in
  let st1 := stateAt 1000 None in
  let st2 := {| eventDetails := Some (sampleEvent [c]); loading := true;
                error := Some "Erreur 500"; statusFilter := FilterAll;
                searchTerm := "tetris"; refreshKey := 3;
                currentTime := 1000 |} in
  getChallengeStatus st1 c = getChallengeStatus st2 c
  /\ getCountdown st1 c = getCountdown st2 c.
Proof.
  intros c st1 st2.
  apply (status_countdown_deterministic st1 st2 c c); reflexivity.
Defined.

(** C9 (as amended): for every challenge that is neither completed nor
    permanent and whose timestamps are ordered ([releaseTime <= endTime]),
    at the instant [now = endTime] the status is active while the countdown
    is the expired label. *)
Theorem status_countdown_disagree_at_end :
  forall (st : State) (c : Challenge),
    isCompleted c = false ->
    type c <> PERMANENT ->
    releaseTime c <= endTime c ->
    currentTime st = endTime c ->
    status (getChallengeStatus st c) = "active"
    /\ getCountdown st c = {| text := "Expiré"; color := "#ff4444" |}.
Proof.
  intros st c Hdone Hty Hord Hnow. apply isPermanent_false in Hty.
  unfold getChallengeStatus, getCountdown, differenceInSeconds.
  rewrite Hdone, Hty, Hnow, Z.sub_diag.
  change (Z.quot 0 1000) with 0.
  split; decide_tests; simpl; (reflexivity || lia).
Qed.

Lemma status_countdown_disagree_at_end_witness :
  let c := sampleChallenge 100 200 RACE false 10 in
  status (getChallengeStatus (stateAt 200 None) c) = "active"
  /\ getCountdown (stateAt 200 None) c
     = {| text := "Expiré"; color := "#ff4444" |}.
Proof.
  intros c.
  apply (status_countdown_disagree_at_end (stateAt 200 None) c).
  - reflexivity.
  - simpl; discriminate.
  - simpl; lia.
  - reflexivity.
Defined.

(** C9 as stated fails when the timestamps are inverted: a race released at
    10 and ending at 5 is, at [now = 5], upcoming with a start countdown. *)
Lemma status_countdown_at_end_inverted :
  let c := sampleChallenge 10 5 RACE false 10 in
  isCompleted c = false
  /\ type c <> PERMANENT
  /\ currentTime (stateAt 5 None) = endTime c
  /\ status (getChallengeStatus (stateAt 5 None) c) = "upcoming"
  /\ status (getChallengeStatus (stateAt 5 None) c) <> "active"
  /\ text (getCountdown (stateAt 5 None) c) = "Démarre dans 0s"
  /\ text (getCountdown (stateAt 5 None) c) <> "Expiré".
Proof. simpl. repeat split; discriminate. Qed.

(** * Properties of the auto-refresh effect *)

Lemma pending_positive now c d : pending now c d -> 0 < d.
Proof. unfold pending. lia. Qed.

(** One iteration either folds a pending boundary into the minimum or
    leaves the variable alone. *)
Lemma nextUpdate_step_cases now acc c :
  (exists d, pending now c d /\ nextUpdate_step now acc c = Math_min acc d)
  \/ (releaseTime c <= now /\ endTime c <= now
      /\ nextUpdate_step now acc c = acc).
Proof.
  unfold nextUpdate_step, pending. decide_tests.
  - left. exists (releaseTime c - now). split; [ lia | reflexivity ].
  - left. exists (endTime c - now). split; [ lia | reflexivity ].
  - right. repeat split; lia.
Qed.

Lemma pending_functional now c d d' :
  pending now c d -> pending now c d' -> d = d'.
Proof. unfold pending. lia. Qed.

Lemma not_pending now c d :
  releaseTime c <= now -> endTime c <= now -> ~ pending now c d.
Proof. unfold pending. lia. Qed.

(** The loop invariant of the [forEach]: the variable is the minimum of its
    initial value and of the pending boundaries seen so far. *)
Lemma nextUpdate_fold now cs :
  forall acc,
    match fold_left (nextUpdate_step now) cs acc with
    | Infinity =>
        acc = Infinity
        /\ (forall c, c ∈ cs -> releaseTime c <= now /\ endTime c <= now)
    | Finite d =>
        (acc = Finite d \/ exists c, c ∈ cs /\ pending now c d)
        /\ (forall a, acc = Finite a -> d <= a)
        /\ (forall c d', c ∈ cs -> pending now c d' -> d <= d')
    end.
Proof.
  induction cs as [ | c cs IH ]; intros acc; simpl.
  - destruct acc as [ a | ].
    + split; [ left; reflexivity | ].
      split; [ intros ? [= ->]; lia | intros ? ? Hin; inversion Hin ].
    + split; [ reflexivity | intros ? Hin; inversion Hin ].
  - specialize (IH (nextUpdate_step now acc c)).
    destruct (nextUpdate_step_cases now acc c)
      as [ (d0 & Hp & Hstep) | (Hr & He & Hstep) ]; rewrite Hstep in IH |- *.
    + destruct (fold_left _ cs _) as [ d | ].
      * destruct IH as (Hex & Hle & Hmin).
        assert (Hd : d <= d0 /\ forall a, acc = Finite a -> d <= a).
        { destruct acc as [ a | ]; simpl in Hle.
          - specialize (Hle _ eq_refl). split; [ lia | ].
            intros ? [= <-]. lia.
          - specialize (Hle _ eq_refl). split; [ lia | discriminate ]. }
        destruct Hd as (Hd0 & Hacc).
        split; [ | split; [ exact Hacc | ] ].
        -- destruct Hex as [ Heq | (c' & Hin & Hp') ].
           ++ destruct acc as [ a | ]; simpl in Heq; injection Heq as Heq.
              ** destruct (Z.min_spec a d0) as [ (_ & Hm) | (_ & Hm) ];
                   rewrite Hm in Heq; subst d.
                 --- left; reflexivity.
                 --- right. exists c. split; [ left | exact Hp ].
              ** subst d. right. exists c. split; [ left | exact Hp ].
           ++ right. exists c'. split; [ right; exact Hin | exact Hp' ].
        -- intros c' d' Hin Hp'. apply elem_of_cons in Hin as [ -> | Hin ].
           ++ rewrite (pending_functional _ _ _ _ Hp' Hp). exact Hd0.
           ++ exact (Hmin _ _ Hin Hp').
      * destruct IH as (Habs & _). destruct acc; discriminate Habs.
    + destruct (fold_left _ cs _) as [ d | ].
      * destruct IH as (Hex & Hle & Hmin).
        split; [ | split; [ exact Hle | ] ].
        -- destruct Hex as [ Heq | (c' & Hin & Hp') ]; [ left; exact Heq | ].
           right. exists c'. split; [ right; exact Hin | exact Hp' ].
        -- intros c' d' Hin Hp'. apply elem_of_cons in Hin as [ -> | Hin ].
           ++ destruct (not_pending _ _ _ Hr He Hp').
           ++ exact (Hmin _ _ Hin Hp').
      * destruct IH as (Hacc & Hall). split; [ exact Hacc | ].
        intros c' Hin. apply elem_of_cons in Hin as [ -> | Hin ].
        -- split; assumption.
        -- exact (Hall _ Hin).
Qed.

(** C4 (as amended): the refresh delay is the minimum, over all challenges,
    of the pending boundaries -- the time to the release when the release is
    still to come, otherwise the time to the end when the end is still to
    come, whatever the completion flag and the type -- it is positive, and
    it is [None] exactly when no challenge has a release or an end after
    [now], in particular for the empty list. *)
Theorem nextBoundary_minimum :
  forall (cs : list Challenge) (now : Z),
    nextBoundary [] now = None
    /\ match nextBoundary cs now with
       | Some d =>
           0 < d
           /\ (exists c, c ∈ cs /\ pending now c d)
           /\ (forall c d', c ∈ cs -> pending now c d' -> d <= d')
       | None =>
           forall c, c ∈ cs -> releaseTime c <= now /\ endTime c <= now
       end.
Proof.
  intros cs now. split; [ reflexivity | ].
  unfold nextBoundary, nextUpdate.
  pose proof (nextUpdate_fold now cs Infinity) as H.
  destruct (fold_left _ cs Infinity) as [ d | ].
  - destruct H as ([ Habs | (c & Hin & Hp) ] & _ & Hmin); [ discriminate | ].
    pose proof (pending_positive _ _ _ Hp) as Hpos.
    rewrite Z.gtb_ltb. destruct (Z.ltb_spec 0 d); [ | lia ].
    split; [ exact Hpos | ]. split; [ exists c; auto | exact Hmin ].
  - exact (proj2 H).
Qed.

Lemma nextBoundary_minimum_witness :
  let a := sampleChallenge 0 10 TEMPORARY false 5 in
  let b := sampleChallenge 100 110 RACE false 1 in
  nextBoundary [a; b] 5 = Some 5 /\ 0 < 5 /\ 5 <= 95.
Proof.
  intros a b.
  destruct (nextBoundary_minimum [a; b] 5) as (_ & H).
  change (nextBoundary [a; b] 5) with (Some 5) in H.
  destruct H as (Hpos & _ & Hmin).
  split; [ reflexivity | split; [ exact Hpos | ] ].
  apply (Hmin b 95).
  - right. left.
  - left. simpl. lia.
Defined.

(** C4 as stated fails on a completed challenge and on a permanent one:
    with the release at 0 and the end at 10, at [now = 5] the effect still
    schedules a refresh 5 ms ahead, where the specification's candidates
    give none. *)
Lemma nextBoundary_ignores_completion :
  nextBoundary [sampleChallenge 0 10 TEMPORARY true 5] 5 = Some 5
  /\ nextBoundary_spec [sampleChallenge 0 10 TEMPORARY true 5] 5 = None
  /\ nextBoundary [sampleChallenge 0 10 PERMANENT false 5] 5 = Some 5
  /\ nextBoundary_spec [sampleChallenge 0 10 PERMANENT false 5] 5 = None.
Proof. repeat split. Qed.

(** * Properties of getCountdown *)

Lemma differenceInSeconds_nonneg a b : b <= a -> 0 <= differenceInSeconds a b.
Proof. intros H. unfold differenceInSeconds. apply Z.quot_pos; lia. Qed.

(** The units of a non-negative number of seconds. *)
Lemma units_nonneg diff :
  0 <= diff ->
  0 <= days_of diff /\ 0 <= hours_of diff < 24
  /\ 0 <= minutes_of diff < 60 /\ 0 <= seconds_of diff < 60.
Proof.
  intros H. unfold days_of, hours_of, minutes_of, seconds_of.
  rewrite !Z.rem_mod_nonneg by lia.
  repeat split; Z.div_mod_to_equations; lia.
Qed.

(** Which unit leads, by the size of [diff]. *)
Lemma units_thresholds diff :
  0 <= diff ->
  (0 < days_of diff <-> 86400 <= diff)
  /\ (diff < 86400 -> (0 < hours_of diff <-> 3600 <= diff))
  /\ (diff < 3600 -> (0 < minutes_of diff <-> 60 <= diff))
  /\ (diff < 3600 -> (minutes_of diff < 10 <-> diff < 600)).
Proof.
  intros H. unfold days_of, hours_of, minutes_of.
  rewrite !Z.rem_mod_nonneg by lia.
  repeat split; intros; Z.div_mod_to_equations; lia.
Qed.

(** C5 (as amended): for a temporary, non-completed challenge released one
    hour before [now] and ending thirty minutes after it, the status is
    active, the countdown reads "30m 0s restantes" in the colour of the
    intermediate (under one hour) urgency tier, and the refresh delay over
    the singleton list is thirty minutes (the timer is set one second
    later). *)
Theorem scenario_thirty_minutes_left :
  forall (st : State) (c : Challenge),
    releaseTime c = currentTime st - 3600000 ->
    endTime c = currentTime st + 1800000 ->
    type c = TEMPORARY ->
    isCompleted c = false ->
    status (getChallengeStatus st c) = "active"
    /\ getCountdown st c
       = {| text := "30m 0s restantes"; color := "#ff8800" |}
    /\ urgencyTier (getCountdown st c) = warning
    /\ nextBoundary [c] (currentTime st) = Some 1800000
    /\ (forall ev, eventDetails st = Some ev -> challenges ev = [c] ->
        autoRefresh st (currentTime st) = Some 1801000).
Proof.
  intros st c Hrel Hend Hty Hdone.
  assert (Hcd : getCountdown st c
                = {| text := "30m 0s restantes"; color := "#ff8800" |}).
  { unfold getCountdown, differenceInSeconds.
    rewrite Hdone, Hty, Hrel, Hend.
    replace (currentTime st + 1800000 - currentTime st) with 1800000 by lia.
    destruct (Z.ltb_spec (currentTime st) (currentTime st - 3600000));
      [ lia | ].
    rewrite Z.gtb_ltb.
    destruct (Z.ltb_spec (currentTime st + 1800000) (currentTime st));
      [ lia | ].
    reflexivity. }
  assert (Hnb : nextBoundary [c] (currentTime st) = Some 1800000).
  { unfold nextBoundary, nextUpdate, nextUpdate_step. simpl.
    rewrite Hrel, Hend, !Z.gtb_ltb.
    destruct (Z.ltb_spec (currentTime st) (currentTime st - 3600000));
      [ lia | ].
    destruct (Z.ltb_spec (currentTime st) (currentTime st + 1800000));
      [ | lia ].
    simpl.
    replace (currentTime st + 1800000 - currentTime st) with 1800000 by lia.
    reflexivity. }
  split; [ | split; [ exact Hcd | split; [ rewrite Hcd; reflexivity | ] ] ].
  - unfold getChallengeStatus. rewrite Hdone, Hty, Hrel, Hend.
    decide_tests; simpl; (reflexivity || lia).
  - split; [ exact Hnb | ].
    intros ev Hev Hcs. unfold autoRefresh. rewrite Hev, Hcs, Hnb. reflexivity.
Qed.

Lemma scenario_thirty_minutes_left_witness :
  let c := sampleChallenge 0 5400000 TEMPORARY false 10 in
  let st := stateAt 3600000 (Some (sampleEvent [c])) in
  status (getChallengeStatus st c) = "active"
  /\ getCountdown st c = {| text := "30m 0s restantes"; color := "#ff8800" |}
  /\ urgencyTier (getCountdown st c) = warning
  /\ nextBoundary [c] 3600000 = Some 1800000
  /\ autoRefresh st 3600000 = Some 1801000.
Proof.
  intros c st.
  destruct (scenario_thirty_minutes_left st c eq_refl eq_refl eq_refl eq_refl)
    as (H1 & H2 & H3 & H4 & H5).
  repeat (split; [ assumption | ]).
  exact (H5 (sampleEvent [c]) eq_refl eq_refl).
Defined.

(** C5 as stated fails on the urgency tier: with thirty minutes left the
    countdown carries the colour of the intermediate tier, not the colour
    shown when an hour or more is left. *)
Lemma scenario_tier_not_normal :
  let c := sampleChallenge 0 5400000 TEMPORARY false 10 in
  let st := stateAt 3600000 None in
  color (getCountdown st c) = "#ff8800"
  /\ urgencyTier (getCountdown st c) <> normal
  /\ color (getCountdown st (sampleChallenge 0 7200000 TEMPORARY false 10))
     = "#00ff88".
Proof. simpl. repeat split. discriminate. Qed.

(** Whatever the challenge, the [color] field of the status record is a
    CSS colour constant. *)
Lemma status_color_hex st c :
  isHexColor (status_color (getChallengeStatus st c)) = true.
Proof.
  unfold getChallengeStatus.
  destruct (isCompleted c);
    [ | destruct (currentTime st <? releaseTime c);
        [ | destruct ((currentTime st >? endTime c)
                      && negb (isPermanent (type c))) ] ];
    reflexivity.
Qed.

(** C6 (as amended): for every active challenge that is not permanent, the
    countdown signals urgency through the colour constant of its result:
    ['#ff4444'] when less than ten minutes are left, ['#ff8800'] when less
    than an hour and at least ten minutes are left, ['#00ff88'] when an hour
    or more is left; each of these is a CSS colour constant, and the
    [color] field of the status record is a CSS colour constant as well,
    for every challenge. *)
Theorem countdown_urgency_colour :
  forall (st : State) (c : Challenge),
    status (getChallengeStatus st c) = "active" ->
    type c <> PERMANENT ->
    let diff := differenceInSeconds (endTime c) (currentTime st) in
    color (getCountdown st c)
    = (if diff <? 600 then "#ff4444"
       else if diff <? 3600 then "#ff8800" else "#00ff88")
    /\ isHexColor (color (getCountdown st c)) = true
    /\ urgencyTier (getCountdown st c)
       = (if diff <? 600 then critical
          else if diff <? 3600 then warning else normal)
    /\ status_color (getChallengeStatus st c) = "#00ff88"
    /\ (forall (st' : State) (c' : Challenge),
          isHexColor (status_color (getChallengeStatus st' c')) = true).
Proof.
  intros st c Hact Hty diff.
  destruct (active_inv st c Hact Hty) as (Hdone & Hnow).
  assert (Hsc : status_color (getChallengeStatus st c) = "#00ff88").
  { revert Hact. unfold getChallengeStatus.
    destruct (isCompleted c); [ discriminate | ].
    destruct (currentTime st <? releaseTime c); [ discriminate | ].
    destruct ((currentTime st >? endTime c) && negb (isPermanent (type c)));
      [ discriminate | reflexivity ]. }
  apply isPermanent_false in Hty.
  assert (Hdiff : 0 <= diff) by (apply differenceInSeconds_nonneg; lia).
  destruct (units_thresholds diff Hdiff) as (Hd & Hh & Hm & Hm10).
  assert (Hcol : color (getCountdown st c)
                 = (if diff <? 600 then "#ff4444"
                    else if diff <? 3600 then "#ff8800" else "#00ff88")).
  { unfold getCountdown. rewrite Hdone, Hty. fold diff.
    destruct (Z.ltb_spec (currentTime st) (releaseTime c)); [ lia | ].
    rewrite (Z.gtb_ltb (currentTime st)).
    destruct (Z.ltb_spec (endTime c) (currentTime st)); [ lia | ].
    decide_tests; simpl; try reflexivity; lia. }
  split; [ exact Hcol | ].
  unfold urgencyTier. rewrite Hcol.
  repeat split; try exact Hsc; try apply status_color_hex;
    destruct (diff <? 600); try destruct (diff <? 3600); reflexivity.
Qed.

Lemma countdown_urgency_colour_witness :
  let c := sampleChallenge 0 5400000 RACE false 10 in
  let st := stateAt 3600000 None in
  color (getCountdown st c) = "#ff8800"
  /\ isHexColor (color (getCountdown st c)) = true
  /\ urgencyTier (getCountdown st c) = warning
  /\ status_color (getChallengeStatus st c) = "#00ff88"
  /\ (forall (st' : State) (c' : Challenge),
        isHexColor (status_color (getChallengeStatus st' c')) = true).
Proof.
  intros c st.
  apply (countdown_urgency_colour st c).
  - reflexivity.
  - simpl; discriminate.
Defined.

(** C6 as stated fails: the urgency signal of an active, non-permanent
    challenge is a colour constant, and the status record carries colour
    constants too. *)
Lemma countdown_emits_colour_constant :
  let c := sampleChallenge 0 5400000 TEMPORARY false 10 in
  let st := stateAt 3600000 None in
  status (getChallengeStatus st c) = "active"
  /\ color (getCountdown st c) = "#ff8800"
  /\ isHexColor (color (getCountdown st c)) = true
  /\ isHexColor (status_color (getChallengeStatus st c)) = true.
Proof. simpl. repeat split. Qed.

Lemma noMinus_append a b : noMinus (a +:+ b) = noMinus a && noMinus b.
Proof.
  induction a as [ | ch a IH ]; simpl; [ reflexivity | ].
  rewrite IH, andb_assoc. reflexivity.
Qed.

Lemma noMinus_uint u : noMinus (NilEmpty.string_of_uint u) = true.
Proof. induction u; simpl; auto. Qed.

Lemma noMinus_Number_toString n : 0 <= n -> noMinus (Number_toString n) = true.
Proof.
  intros Hn. unfold Number_toString.
  destruct n as [ | p | p ]; [ reflexivity | | lia ].
  simpl. destruct (Pos.to_uint p) eqn:E; try reflexivity;
    rewrite <- E; unfold NilZero.string_of_uint; rewrite E;
    apply noMinus_uint.
Qed.

(** A rendered number is never empty and starts with a digit or a sign. *)
Lemma Number_toString_head n rest :
  isUpcomingText (Number_toString n +:+ rest) = false.
Proof.
  unfold Number_toString, isUpcomingText.
  destruct (Z.to_int n) as [ d | d ]; simpl; [ | reflexivity ].
  destruct d; reflexivity.
Qed.

(** Between one second and the end, by the number of whole seconds left,
    the text of the remaining time. *)
Lemma remaining_text st c :
  isCompleted c = false ->
  type c <> PERMANENT ->
  releaseTime c <= currentTime st ->
  1000 <= endTime c - currentTime st ->
  let diff := differenceInSeconds (endTime c) (currentTime st) in
  1 <= diff
  /\ text (getCountdown st c)
     = (if 86400 <=? diff
        then Number_toString (days_of diff) +:+ "j "
             +:+ Number_toString (hours_of diff) +:+ "h restantes"
        else if 3600 <=? diff
        then Number_toString (hours_of diff) +:+ "h "
             +:+ Number_toString (minutes_of diff) +:+ "m restantes"
        else if 60 <=? diff
        then Number_toString (minutes_of diff) +:+ "m "
             +:+ Number_toString (seconds_of diff) +:+ "s restantes"
        else Number_toString (seconds_of diff) +:+ "s restantes").
Proof.
  intros Hdone Hty Hrel Hleft diff. apply isPermanent_false in Hty.
  assert (Hdiff : 1 <= diff).
  { subst diff. unfold differenceInSeconds.
    change 1 with (Z.quot 1000 1000). apply Z.quot_le_mono; lia. }
  split; [ exact Hdiff | ].
  destruct (units_thresholds diff ltac:(lia)) as (Hd & Hh & Hm & _).
  unfold getCountdown. rewrite Hdone, Hty. fold diff.
  destruct (Z.ltb_spec (currentTime st) (releaseTime c)); [ lia | ].
  rewrite (Z.gtb_ltb (currentTime st)).
  destruct (Z.ltb_spec (endTime c) (currentTime st)); [ lia | ].
  destruct (Z.leb_spec diff 0); [ lia | ].
  rewrite !Z.gtb_ltb.
  destruct (Z.leb_spec 86400 diff);
    destruct (Z.ltb_spec 0 (days_of diff)); try lia; [ reflexivity | ].
  destruct (Z.leb_spec 3600 diff);
    destruct (Z.ltb_spec 0 (hours_of diff)); try lia; [ reflexivity | ].
  destruct (Z.leb_spec 60 diff);
    destruct (Z.ltb_spec 0 (minutes_of diff)); try lia; reflexivity.
Qed.

(** C7 (as amended): the countdown is defined for every challenge and every
    instant and its text never shows a negative unit (no minus sign occurs
    in it); less than a second before the release the upcoming countdown
    reads zero seconds; at [now = releaseTime] exactly the challenge is no
    longer upcoming and the text is no longer a start countdown: it is the
    completed label for a completed challenge, the permanent label for a
    permanent one, the remaining time when the end is at least one second
    after the release, and the expired label otherwise -- also when the end
    is less than a second after the release and the status is still
    active. *)
Theorem countdown_never_negative :
  (forall (st : State) (c : Challenge),
     noMinus (text (getCountdown st c)) = true)
  /\ (forall (st : State) (c : Challenge),
        isCompleted c = false ->
        currentTime st < releaseTime c < currentTime st + 1000 ->
        text (getCountdown st c) = "Démarre dans 0s")
  /\ (forall (st : State) (c : Challenge),
        currentTime st = releaseTime c ->
        let diff := differenceInSeconds (endTime c) (releaseTime c) in
        status (getChallengeStatus st c) <> "upcoming"
        /\ isUpcomingText (text (getCountdown st c)) = false
        /\ (isCompleted c = false -> releaseTime c <= endTime c ->
            status (getChallengeStatus st c) = "active")
        /\ (isCompleted c = true -> text (getCountdown st c) = "Complété")
        /\ (isCompleted c = false -> type c = PERMANENT ->
            text (getCountdown st c) = "Permanent")
        /\ (isCompleted c = false -> type c <> PERMANENT ->
            endTime c - releaseTime c < 1000 ->
            text (getCountdown st c) = "Expiré")
        /\ (isCompleted c = false -> type c <> PERMANENT ->
            1000 <= endTime c - releaseTime c ->
            text (getCountdown st c)
            = (if 86400 <=? diff
               then Number_toString (days_of diff) +:+ "j "
                    +:+ Number_toString (hours_of diff) +:+ "h restantes"
               else if 3600 <=? diff
               then Number_toString (hours_of diff) +:+ "h "
                    +:+ Number_toString (minutes_of diff) +:+ "m restantes"
               else if 60 <=? diff
               then Number_toString (minutes_of diff) +:+ "m "
                    +:+ Number_toString (seconds_of diff) +:+ "s restantes"
               else Number_toString (seconds_of diff) +:+ "s restantes"))).
Proof.
  split; [ | split ].
  - intros st c. unfold getCountdown.
    destruct (isCompleted c); [ reflexivity | ].
    destruct (Z.ltb_spec (currentTime st) (releaseTime c)) as [ Hup | Hrel ].
    + set (diff := differenceInSeconds (releaseTime c) (currentTime st)).
      assert (Hdiff : 0 <= diff) by (apply differenceInSeconds_nonneg; lia).
      destruct (units_nonneg diff Hdiff) as (Hd & Hh & Hm & Hs).
      destruct (days_of diff >? 0); [ | destruct (hours_of diff >? 0);
        [ | destruct (minutes_of diff >? 0) ] ]; cbn [text];
        rewrite !noMinus_append, !noMinus_Number_toString by lia;
        reflexivity.
    + destruct (isPermanent (type c)); [ reflexivity | ].
      rewrite Z.gtb_ltb.
      destruct (Z.ltb_spec (endTime c) (currentTime st)) as [ Hexp | Hend ];
        [ reflexivity | ].
      set (diff := differenceInSeconds (endTime c) (currentTime st)).
      assert (Hdiff : 0 <= diff) by (apply differenceInSeconds_nonneg; lia).
      destruct (units_nonneg diff Hdiff) as (Hd & Hh & Hm & Hs).
      destruct (diff <=? 0); [ reflexivity | ].
      destruct (days_of diff >? 0); [ | destruct (hours_of diff >? 0);
        [ | destruct (minutes_of diff >? 0) ] ]; cbn [text];
        rewrite !noMinus_append, !noMinus_Number_toString by lia;
        reflexivity.
  - intros st c Hdone Hnow. unfold getCountdown, differenceInSeconds.
    rewrite Hdone.
    destruct (Z.ltb_spec (currentTime st) (releaseTime c)); [ | lia ].
    rewrite Z.quot_small by lia. reflexivity.
  - intros st c Hnow diff.
    assert (Hstatus : status (getChallengeStatus st c) <> "upcoming").
    { unfold getChallengeStatus. rewrite Hnow, Z.ltb_irrefl.
      destruct (isCompleted c);
        [ | destruct ((releaseTime c >? endTime c)
                      && negb (isPermanent (type c))) ];
        simpl; discriminate. }
    assert (Hprefix : isUpcomingText (text (getCountdown st c)) = false).
    { unfold getCountdown. rewrite Hnow, Z.ltb_irrefl.
      destruct (isCompleted c); [ reflexivity | ].
      destruct (isPermanent (type c)); [ reflexivity | ].
      destruct (releaseTime c >? endTime c); [ reflexivity | ].
      set (d := differenceInSeconds (endTime c) (releaseTime c)).
      destruct (d <=? 0); [ reflexivity | ].
      destruct (days_of d >? 0); [ | destruct (hours_of d >? 0);
        [ | destruct (minutes_of d >? 0) ] ]; cbn [text];
        apply Number_toString_head. }
    split; [ exact Hstatus | split; [ exact Hprefix | ] ].
    split; [ | split; [ | split; [ | split ] ] ].
    + intros Hdone Hord. unfold getChallengeStatus.
      rewrite Hnow, Z.ltb_irrefl, Hdone, Z.gtb_ltb.
      destruct (Z.ltb_spec (endTime c) (releaseTime c)); [ lia | ].
      reflexivity.
    + intros Hdone. unfold getCountdown. rewrite Hdone. reflexivity.
    + intros Hdone Hty. apply isPermanent_true in Hty.
      unfold getCountdown. rewrite Hnow, Z.ltb_irrefl, Hdone, Hty.
      reflexivity.
    + intros Hdone Hty Hshort. apply isPermanent_false in Hty.
      unfold getCountdown, differenceInSeconds.
      rewrite Hnow, Z.ltb_irrefl, Hdone, Hty, Z.gtb_ltb.
      destruct (Z.ltb_spec (endTime c) (releaseTime c)); [ reflexivity | ].
      rewrite Z.quot_small by lia. reflexivity.
    + intros Hdone Hty Hlong. subst diff. rewrite <- Hnow.
      apply (remaining_text st c Hdone Hty); lia.
Qed.

Lemma countdown_never_negative_witness :
  let c := sampleChallenge 10000 20000 TEMPORARY false 5 in
  text (getCountdown (stateAt 9500 None) c) = "Démarre dans 0s"
  /\ isUpcomingText (text (getCountdown (stateAt 10000 None) c)) = false
  /\ status (getChallengeStatus (stateAt 10000 None) c) = "active"
  /\ text (getCountdown (stateAt 10000 None) c) = "10s restantes"
  /\ text (getCountdown (stateAt 10000 None)
             (sampleChallenge 10000 10500 TEMPORARY false 5)) = "Expiré".
Proof.
  intros c.
  destruct countdown_never_negative as (_ & Hzero & Hat).
  split; [ apply Hzero; [ reflexivity | simpl; lia ] | ].
  destruct (Hat (stateAt 10000 None) c eq_refl)
    as (_ & Htext & Hact & _ & _ & _ & Hleft).
  split; [ exact Htext | ].
  split; [ apply Hact; [ reflexivity | simpl; lia ] | ].
  split.
  - rewrite Hleft; [ reflexivity | reflexivity | simpl; discriminate
                   | simpl; lia ].
  - destruct (Hat (stateAt 10000 None)
                (sampleChallenge 10000 10500 TEMPORARY false 5) eq_refl)
      as (_ & _ & _ & _ & _ & Hshort & _).
    apply Hshort; [ reflexivity | simpl; discriminate | simpl; lia ].
Defined.

(** C7 as stated fails at the release instant of a challenge whose end is
    less than a second later: with the release at 10000 and the end at
    10500, at [now = 10000] the status is active but the countdown neither
    reads zero nor shows a remaining time: it is the expired label, the one
    shown once the challenge has expired. *)
Lemma countdown_expired_at_release :
  let c := sampleChallenge 10000 10500 TEMPORARY false 5 in
  let st := stateAt 10000 None in
  currentTime st = releaseTime c
  /\ releaseTime c <= endTime c
  /\ status (getChallengeStatus st c) = "active"
  /\ getCountdown st c = {| text := "Expiré"; color := "#ff4444" |}
  /\ text (getCountdown st c) <> "Démarre dans 0s"
  /\ text (getCountdown st c) <> "0s restantes"
  /\ status (getChallengeStatus (stateAt 20000 None) c) = "expired"
  /\ getCountdown st c = getCountdown (stateAt 20000 None) c.
Proof. simpl. repeat split; (lia || discriminate). Qed.

(** * Properties of the stats memo and of getFilterCounts *)

(** The branch taken by one iteration of the stats loop is the status of
    the challenge. *)
Lemma stats_step_status st acc c :
  stats_step (currentTime st) acc c =
  {| totalChallenges := totalChallenges acc;
     completedChallenges :=
       completedChallenges acc + countStatus st "completed" [c];
     totalPoints := totalPoints acc + points c;
     earnedPoints := earnedPoints acc + sumCompletedPoints [c];
     activeChallenges := activeChallenges acc + countStatus st "active" [c];
     upcomingChallenges :=
       upcomingChallenges acc + countStatus st "upcoming" [c];
     expiredChallenges :=
       expiredChallenges acc + countStatus st "expired" [c] |}.
Proof.
  unfold stats_step, countStatus, sumCompletedPoints, getChallengeStatus.
  destruct (isCompleted c);
    [ | destruct (currentTime st <? releaseTime c);
        [ | destruct ((currentTime st >? endTime c)
                      && negb (isPermanent (type c))) ] ];
    simpl; f_equal; lia.
Qed.

Lemma stats_fold st cs :
  forall acc,
    fold_left (stats_step (currentTime st)) cs acc =
    {| totalChallenges := totalChallenges acc;
       completedChallenges :=
         completedChallenges acc + countStatus st "completed" cs;
       totalPoints := totalPoints acc + sumPoints cs;
       earnedPoints := earnedPoints acc + sumCompletedPoints cs;
       activeChallenges := activeChallenges acc + countStatus st "active" cs;
       upcomingChallenges :=
         upcomingChallenges acc + countStatus st "upcoming" cs;
       expiredChallenges :=
         expiredChallenges acc + countStatus st "expired" cs |}.
Proof.
  induction cs as [ | c cs IH ]; intros acc.
  - destruct acc; simpl; f_equal; lia.
  - cbn [fold_left]. rewrite IH, stats_step_status.
    cbn [totalChallenges completedChallenges totalPoints earnedPoints
         activeChallenges upcomingChallenges expiredChallenges].
    cbn [countStatus sumPoints sumCompletedPoints].
    f_equal; lia.
Qed.

(** Every challenge has exactly one of the four statuses. *)
Lemma countStatus_partition st cs :
  countStatus st "completed" cs + countStatus st "upcoming" cs
  + countStatus st "expired" cs + countStatus st "active" cs
  = Z.of_nat (length cs).
Proof.
  induction cs as [ | c cs IH ]; [ reflexivity | ].
  cbn [countStatus length]. rewrite Nat2Z.inj_succ, <- IH.
  rewrite status_classify.
  destruct (classify c (currentTime st)); simpl; lia.
Qed.

Lemma sumCompletedPoints_le cs :
  (forall c, c ∈ cs -> isCompleted c = false -> 0 <= points c) ->
  sumCompletedPoints cs <= sumPoints cs.
Proof.
  induction cs as [ | c cs IH ]; intros Hpos; simpl; [ lia | ].
  assert (Htl : sumCompletedPoints cs <= sumPoints cs).
  { apply IH. intros c' Hin. apply Hpos. right. exact Hin. }
  pose proof (Hpos c (list_elem_of_here c cs)) as Hc.
  destruct (isCompleted c); [ lia | ]. specialize (Hc eq_refl). lia.
Qed.

(** One iteration of the filter-count loop adds one to the entry of [all]
    and one to the entry of the challenge's status. *)
Lemma filterCounts_step_lookup st m c k :
  filterCounts_step st m c !! k
  = (fun n => n + ((if String.eqb "all" k then 1 else 0)
                   + countStatus st k [c])) <$> (m !! k).
Proof.
  unfold filterCounts_step, increment. cbn [countStatus].
  rewrite !lookup_alter.
  pose proof (status_classify st c) as Hs.
  destruct (String.eqb_spec (status (getChallengeStatus st c)) k) as [ E | E ];
    destruct (String.eqb_spec "all" k) as [ A | A ].
  - exfalso. rewrite <- A, Hs in E.
    destruct (classify c (currentTime st)); discriminate.
  - rewrite !decide_True by assumption. rewrite decide_False.
    + rewrite E. destruct (m !! k); simpl; f_equal; lia.
    + rewrite E. exact A.
  - rewrite decide_False by assumption. rewrite decide_True by assumption.
    rewrite A. destruct (m !! k); simpl; f_equal; lia.
  - rewrite !decide_False by assumption.
    destruct (m !! k); simpl; f_equal; lia.
Qed.

Lemma filterCounts_fold st cs :
  forall m k,
    fold_left (filterCounts_step st) cs m !! k
    = (fun n => n + ((if String.eqb "all" k then Z.of_nat (length cs) else 0)
                     + countStatus st k cs)) <$> (m !! k).
Proof.
  induction cs as [ | c cs IH ]; intros m k.
  - cbn [fold_left countStatus length].
    destruct (String.eqb "all" k), (m !! k); simpl; f_equal; lia.
  - cbn [fold_left]. rewrite IH, filterCounts_step_lookup.
    cbn [countStatus length]. rewrite Nat2Z.inj_succ.
    destruct (String.eqb "all" k), (m !! k); simpl; f_equal; lia.
Qed.

Lemma countStatus_all st cs : countStatus st "all" cs = 0.
Proof.
  induction cs as [ | c cs IH ]; [ reflexivity | ].
  cbn [countStatus]. rewrite IH.
  rewrite status_classify.
  destruct (classify c (currentTime st)); reflexivity.
Qed.

(** C10 (as amended): the stats loop puts every challenge in exactly one of
    the four counters: the four counters add up to [totalChallenges], the
    number of challenges; each counter is the number of challenges with
    that status by [getChallengeStatus], and is the entry of
    [getFilterCounts] under that status; and [earnedPoints <= totalPoints]
    whenever no challenge that is not completed has negative points. *)
Theorem stats_partition :
  forall (st : State),
    let s := stats st in
    let cs := loadedChallenges st in
    completedChallenges s + upcomingChallenges s + expiredChallenges s
      + activeChallenges s = totalChallenges s
    /\ totalChallenges s = Z.of_nat (length cs)
    /\ completedChallenges s = countStatus st "completed" cs
    /\ upcomingChallenges s = countStatus st "upcoming" cs
    /\ expiredChallenges s = countStatus st "expired" cs
    /\ activeChallenges s = countStatus st "active" cs
    /\ getFilterCounts st !! "all" = Some (totalChallenges s)
    /\ getFilterCounts st !! "completed" = Some (completedChallenges s)
    /\ getFilterCounts st !! "upcoming" = Some (upcomingChallenges s)
    /\ getFilterCounts st !! "expired" = Some (expiredChallenges s)
    /\ getFilterCounts st !! "active" = Some (activeChallenges s)
    /\ ((forall c, c ∈ cs -> isCompleted c = false -> 0 <= points c) ->
        earnedPoints s <= totalPoints s).
Proof.
  intros st s cs. subst s cs.
  unfold stats, getFilterCounts, loadedChallenges.
  destruct (eventDetails st) as [ ev | ].
  - rewrite stats_fold.
    cbn [totalChallenges completedChallenges totalPoints earnedPoints
         activeChallenges upcomingChallenges expiredChallenges].
    rewrite !filterCounts_fold, countStatus_all.
    pose proof (countStatus_partition st (challenges ev)) as Hsum.
    repeat split; try lia.
    + change (zeroCounts !! "all") with (Some 0).
      cbn [String.eqb Ascii.eqb Bool.eqb fmap option_fmap option_map].
      f_equal. lia.
    + intros Hpos. pose proof (sumCompletedPoints_le _ Hpos). lia.
  - repeat split; simpl; lia.
Qed.

Lemma stats_partition_witness :
  let cs := [sampleChallenge 0 10 TEMPORARY true 5;
             sampleChallenge 0 10 RACE false 3;
             sampleChallenge 100 110 PERMANENT false 1] in
  let st := stateAt 5 (Some (sampleEvent cs)) in
  completedChallenges (stats st) + upcomingChallenges (stats st)
    + expiredChallenges (stats st) + activeChallenges (stats st) = 3
  /\ getFilterCounts st !! "active" = Some (activeChallenges (stats st))
  /\ earnedPoints (stats st) <= totalPoints (stats st).
Proof.
  intros cs st.
  destruct (stats_partition st)
    as (Hsum & Htot & _ & _ & _ & _ & _ & _ & _ & _ & Hact & Hpts).
  split; [ rewrite Hsum, Htot; reflexivity | ].
  split; [ exact Hact | ].
  apply Hpts. intros c Hin _.
  repeat (apply elem_of_cons in Hin as [ -> | Hin ]; [ simpl; lia | ]).
  inversion Hin.
Defined.

(** C10 as stated fails on the points: with a completed challenge worth 5
    points and a challenge not completed worth -3 points, the earned points
    (5) exceed the total points (2). *)
Lemma earnedPoints_exceed_totalPoints :
  let cs := [sampleChallenge 0 10 TEMPORARY true 5;
             sampleChallenge 0 10 TEMPORARY false (-3)] in
  let st := stateAt 5 (Some (sampleEvent cs)) in
  earnedPoints (stats st) = 5
  /\ totalPoints (stats st) = 2
  /\ ~ earnedPoints (stats st) <= totalPoints (stats st).
Proof. simpl. repeat split. lia. Qed.

(** * Further properties of getCountdown *)

(** X1: the four units computed from a non-negative number of seconds
    recompose it exactly, with hours below 24 and minutes and seconds below
    60. *)
Theorem countdown_units_recompose :
  forall diff : Z,
    0 <= diff ->
    days_of diff * 86400 + hours_of diff * 3600 + minutes_of diff * 60
      + seconds_of diff = diff
    /\ 0 <= days_of diff
    /\ 0 <= hours_of diff < 24
    /\ 0 <= minutes_of diff < 60
    /\ 0 <= seconds_of diff < 60.
Proof.
  intros diff H. unfold days_of, hours_of, minutes_of, seconds_of.
  rewrite !Z.rem_mod_nonneg by lia.
  repeat split; Z.div_mod_to_equations; lia.
Qed.

Lemma countdown_units_recompose_witness :
  days_of 93784 * 86400 + hours_of 93784 * 3600 + minutes_of 93784 * 60
    + seconds_of 93784 = 93784
  /\ 0 <= days_of 93784
  /\ 0 <= hours_of 93784 < 24
  /\ 0 <= minutes_of 93784 < 60
  /\ 0 <= seconds_of 93784 < 60.
Proof. apply (countdown_units_recompose 93784). lia. Defined.

(** A rendered number starts with a digit or a sign, so a text that starts
    with one is none of the fixed labels. *)
Lemma Number_toString_first n rest :
  exists ch s,
    Number_toString n +:+ rest = String ch s
    /\ ch <> "C"%char /\ ch <> "E"%char /\ ch <> "P"%char /\ ch <> "D"%char.
Proof.
  unfold Number_toString.
  destruct (Z.to_int n) as [ d | d ]; simpl.
  - destruct d; simpl; eexists _, _;
      (split; [ reflexivity | repeat split; discriminate ]).
  - eexists _, _. split; [ reflexivity | repeat split; discriminate ].
Qed.

Lemma Number_toString_not_label n rest :
  Number_toString n +:+ rest <> "Complété"
  /\ Number_toString n +:+ rest <> "Expiré"
  /\ Number_toString n +:+ rest <> "Permanent".
Proof.
  destruct (Number_toString_first n rest) as (ch & s & -> & HC & HE & HP & _).
  repeat split; intros [= ? _]; congruence.
Qed.

(** The countdown of a challenge that is not completed, before its
    release. *)
Lemma getCountdown_upcoming st c :
  isCompleted c = false ->
  currentTime st < releaseTime c ->
  exists rest, text (getCountdown st c) = "Démarre dans " +:+ rest.
Proof.
  intros Hdone Hup. unfold getCountdown. rewrite Hdone.
  destruct (Z.ltb_spec (currentTime st) (releaseTime c)); [ | lia ].
  set (diff := differenceInSeconds (releaseTime c) (currentTime st)).
  destruct (days_of diff >? 0); [ | destruct (hours_of diff >? 0);
    [ | destruct (minutes_of diff >? 0) ] ]; cbn [text];
    eexists; reflexivity.
Qed.

(** The countdown of a challenge that is not completed, from its release
    on: a fixed label, or a remaining time that starts with a number. *)
Lemma getCountdown_released st c :
  isCompleted c = false ->
  releaseTime c <= currentTime st ->
  (isPermanent (type c) = true /\ text (getCountdown st c) = "Permanent")
  \/ (isPermanent (type c) = false
      /\ endTime c - currentTime st < 1000
      /\ text (getCountdown st c) = "Expiré")
  \/ (isPermanent (type c) = false
      /\ 1000 <= endTime c - currentTime st
      /\ exists n rest, text (getCountdown st c) = Number_toString n +:+ rest).
Proof.
  intros Hdone Hrel. unfold getCountdown, differenceInSeconds. rewrite Hdone.
  destruct (Z.ltb_spec (currentTime st) (releaseTime c)); [ lia | ].
  destruct (isPermanent (type c)); [ left; split; reflexivity | right ].
  rewrite Z.gtb_ltb.
  destruct (Z.ltb_spec (endTime c) (currentTime st));
    [ left; repeat split; lia | ].
  set (diff := Z.quot (endTime c - currentTime st) 1000).
  assert (Hq : diff <= 0 <-> endTime c - currentTime st < 1000).
  { subst diff. split; intros Hd.
    - destruct (Z.lt_ge_cases (endTime c - currentTime st) 1000) as [ | Hge ];
        [ assumption | ].
      apply (Z.quot_le_mono _ _ 1000) in Hge; [ | lia ].
      change (Z.quot 1000 1000) with 1 in Hge. lia.
    - rewrite Z.quot_small by lia. lia. }
  destruct (Z.leb_spec diff 0); [ left; repeat split; lia | right ].
  split; [ reflexivity | split; [ lia | ] ].
  destruct (days_of diff >? 0); [ | destruct (hours_of diff >? 0);
    [ | destruct (minutes_of diff >? 0) ] ]; cbn [text];
    eexists _, _; reflexivity.
Qed.

(** X2: the countdown text and the status agree on upcoming and on
    completed challenges: the text is a start countdown exactly when the
    status is upcoming, and it is the completed label exactly when the
    status is completed. *)
Theorem countdown_text_matches_status :
  forall (st : State) (c : Challenge),
    (status (getChallengeStatus st c) = "upcoming"
     <-> isUpcomingText (text (getCountdown st c)) = true)
    /\ (status (getChallengeStatus st c) = "completed"
        <-> text (getCountdown st c) = "Complété").
Proof.
  intros st c.
  destruct (isCompleted c) eqn:Hdone.
  { unfold getChallengeStatus, getCountdown. rewrite Hdone. simpl.
    repeat split; intros; (reflexivity || discriminate). }
  destruct (Z.lt_ge_cases (currentTime st) (releaseTime c)) as [ Hup | Hrel ].
  - destruct (getCountdown_upcoming st c Hdone Hup) as (rest & ->).
    unfold getChallengeStatus. rewrite Hdone.
    destruct (Z.ltb_spec (currentTime st) (releaseTime c)); [ | lia ].
    simpl. unfold isUpcomingText. simpl. rewrite String.prefix_correct. simpl.
    repeat split; intros; try reflexivity; try discriminate.
    destruct rest; reflexivity.
  - assert (Hst : status (getChallengeStatus st c) <> "upcoming"
                  /\ status (getChallengeStatus st c) <> "completed").
    { unfold getChallengeStatus. rewrite Hdone.
      destruct (Z.ltb_spec (currentTime st) (releaseTime c)); [ lia | ].
      destruct ((currentTime st >? endTime c)
                && negb (isPermanent (type c))); simpl;
        split; discriminate. }
    destruct Hst as (Hnu & Hnc).
    destruct (getCountdown_released st c Hdone Hrel)
      as [ (_ & ->) | [ (_ & _ & ->) | (_ & _ & n & rest & ->) ] ].
    + repeat split; intros; try contradiction; discriminate.
    + repeat split; intros; try contradiction; discriminate.
    + rewrite Number_toString_head.
      destruct (Number_toString_not_label n rest) as (HC & _).
      repeat split; intros; try contradiction; discriminate.
Qed.

(** X3: the countdown shows the expired label exactly for a challenge that
    is not completed, not permanent, already released, and with less than
    one second left before its end (or past it); in particular it shows it
    whenever the status is expired. *)
Theorem expired_label_iff :
  forall (st : State) (c : Challenge),
    (text (getCountdown st c) = "Expiré"
     <-> isCompleted c = false /\ type c <> PERMANENT
         /\ releaseTime c <= currentTime st
         /\ endTime c - currentTime st < 1000)
    /\ (status (getChallengeStatus st c) = "expired" ->
        getCountdown st c = {| text := "Expiré"; color := "#ff4444" |}).
Proof.
  intros st c. split.
  - destruct (isCompleted c) eqn:Hdone.
    { unfold getCountdown. rewrite Hdone. simpl.
      split; [ discriminate | intros (? & _); discriminate ]. }
    destruct (Z.lt_ge_cases (currentTime st) (releaseTime c)) as [ Hup | Hrel ].
    { destruct (getCountdown_upcoming st c Hdone Hup) as (rest & ->).
      split; [ discriminate | intros (_ & _ & ? & _); lia ]. }
    rewrite <- isPermanent_false.
    destruct (getCountdown_released st c Hdone Hrel)
      as [ (Hp & ->) | [ (Hp & Hlt & ->) | (Hp & Hge & n & rest & ->) ] ].
    + split; [ discriminate | intros (_ & ? & _); congruence ].
    + split; [ intros _; repeat split; assumption | reflexivity ].
    + destruct (Number_toString_not_label n rest) as (_ & HE & _).
      split; [ contradiction | intros (_ & _ & _ & ?); lia ].
  - unfold getChallengeStatus, getCountdown.
    destruct (isCompleted c); [ discriminate | ].
    destruct (Z.ltb_spec (currentTime st) (releaseTime c)); [ discriminate | ].
    destruct (isPermanent (type c));
      [ rewrite andb_false_r; discriminate | ].
    destruct (currentTime st >? endTime c); [ reflexivity | discriminate ].
Qed.

Lemma expired_label_iff_witness :
  let c := sampleChallenge 0 10000 TEMPORARY false 5 in
  text (getCountdown (stateAt 9500 None) c) = "Expiré"
  /\ getCountdown (stateAt 10001 None) c
     = {| text := "Expiré"; color := "#ff4444" |}.
Proof.
  intros c. split.
  - apply (expired_label_iff (stateAt 9500 None) c).
    repeat split; simpl; (discriminate || lia).
  - apply (expired_label_iff (stateAt 10001 None) c). reflexivity.
Defined.

(** The colour of the countdown of an active challenge that is not
    permanent, by the number of whole seconds left. *)
Lemma active_colour st c :
  status (getChallengeStatus st c) = "active" ->
  type c <> PERMANENT ->
  let diff := differenceInSeconds (endTime c) (currentTime st) in
  0 <= diff
  /\ color (getCountdown st c)
     = (if diff <? 600 then "#ff4444"
        else if diff <? 3600 then "#ff8800" else "#00ff88").
Proof.
  intros Hact Hty diff.
  destruct (active_inv st c Hact Hty) as (Hdone & Hnow).
  apply isPermanent_false in Hty.
  assert (Hdiff : 0 <= diff) by (apply differenceInSeconds_nonneg; lia).
  split; [ exact Hdiff | ].
  destruct (units_thresholds diff Hdiff) as (Hd & Hh & Hm & Hm10).
  unfold getCountdown. rewrite Hdone, Hty. fold diff.
  destruct (Z.ltb_spec (currentTime st) (releaseTime c)); [ lia | ].
  rewrite (Z.gtb_ltb (currentTime st)).
  destruct (Z.ltb_spec (endTime c) (currentTime st)); [ lia | ].
  decide_tests; simpl; try reflexivity; lia.
Qed.

(** X4: while a challenge that is not permanent stays active, the urgency
    of its countdown never relaxes as the clock advances: once critical it
    stays critical, and once warning it never returns to normal. *)
Theorem urgency_never_relaxes :
  forall (st : State) (c : Challenge) (t1 t2 : Z),
    type c <> PERMANENT ->
    t1 <= t2 ->
    status (getChallengeStatus (tick st t1) c) = "active" ->
    status (getChallengeStatus (tick st t2) c) = "active" ->
    (urgencyTier (getCountdown (tick st t1) c) = critical ->
     urgencyTier (getCountdown (tick st t2) c) = critical)
    /\ (urgencyTier (getCountdown (tick st t1) c) = warning ->
        urgencyTier (getCountdown (tick st t2) c) <> normal).
Proof.
  intros st c t1 t2 Hty Hle H1 H2.
  destruct (active_colour _ c H1 Hty) as (Hp1 & Hc1).
  destruct (active_colour _ c H2 Hty) as (Hp2 & Hc2).
  unfold urgencyTier. rewrite Hc1, Hc2. cbn [tick currentTime] in *.
  assert (Hmono : differenceInSeconds (endTime c) t2
                  <= differenceInSeconds (endTime c) t1).
  { unfold differenceInSeconds. apply Z.quot_le_mono; lia. }
  revert Hmono.
  generalize (differenceInSeconds (endTime c) t1) as d1.
  generalize (differenceInSeconds (endTime c) t2) as d2.
  intros d2 d1 Hmono.
  destruct (Z.ltb_spec d1 600); destruct (Z.ltb_spec d2 600);
    destruct (Z.ltb_spec d1 3600); destruct (Z.ltb_spec d2 3600);
    try lia; simpl; split; intros; congruence.
Qed.

Lemma urgency_never_relaxes_witness :
  let c := sampleChallenge 0 7200000 TEMPORARY false 5 in
  let st := stateAt 0 None in
  (urgencyTier (getCountdown (tick st 6900000) c) = critical ->
   urgencyTier (getCountdown (tick st 7000000) c) = critical)
  /\ (urgencyTier (getCountdown (tick st 6900000) c) = warning ->
      urgencyTier (getCountdown (tick st 7000000) c) <> normal).
Proof.
  intros c st.
  apply (urgency_never_relaxes st c 6900000 7000000).
  - simpl; discriminate.
  - lia.
  - reflexivity.
  - reflexivity.
Defined.

(** * Further properties of the auto-refresh effect *)

Lemma nextBoundary_Some_inv cs now d :
  nextBoundary cs now = Some d ->
  (exists c, c ∈ cs /\ pending now c d)
  /\ (forall c d', c ∈ cs -> pending now c d' -> d <= d').
Proof.
  unfold nextBoundary, nextUpdate.
  pose proof (nextUpdate_fold now cs Infinity) as H.
  destruct (fold_left _ cs Infinity) as [ d0 | ]; [ | discriminate ].
  destruct (d0 >? 0); [ | discriminate ]. intros [= <-].
  destruct H as ([ Habs | Hex ] & _ & Hmin); [ discriminate | ].
  split; assumption.
Qed.

Lemma nextBoundary_None_iff cs now :
  nextBoundary cs now = None
  <-> forall c, c ∈ cs -> releaseTime c <= now /\ endTime c <= now.
Proof.
  unfold nextBoundary, nextUpdate.
  pose proof (nextUpdate_fold now cs Infinity) as H.
  destruct (fold_left _ cs Infinity) as [ d0 | ].
  - destruct H as ([ Habs | (c & Hin & Hp) ] & _ & _); [ discriminate | ].
    pose proof (pending_positive _ _ _ Hp) as Hpos.
    rewrite Z.gtb_ltb. destruct (Z.ltb_spec 0 d0); [ | lia ].
    split; [ discriminate | ].
    intros Hall. destruct (Hall c Hin) as (Hr & He).
    destruct (not_pending _ _ _ Hr He Hp).
  - split; [ intros _; exact (proj2 H) | reflexivity ].
Qed.

(** The status at instant [t], given what is known of [t]. *)
Lemma status_at st c t :
  status (getChallengeStatus (tick st t) c)
  = statusName (classify c t).
Proof. rewrite status_classify. reflexivity. Qed.

(** X5: until the computed boundary nothing changes: when the effect, run
    at [now], finds a boundary [d] milliseconds ahead, every challenge of
    the list keeps at every instant of [now, now + d) the status it has at
    [now], except a challenge whose end time is exactly [now]. *)
Theorem statuses_stable_before_boundary :
  forall (st : State) (cs : list Challenge) (now d t : Z) (c : Challenge),
    nextBoundary cs now = Some d ->
    c ∈ cs ->
    now <= t < now + d ->
    endTime c <> now ->
    getChallengeStatus (tick st t) c = getChallengeStatus (tick st now) c.
Proof.
  intros st cs now d t c Hnb Hin Ht Hend.
  destruct (nextBoundary_Some_inv _ _ _ Hnb) as (_ & Hmin).
  specialize (Hmin c).
  assert (Hrel : now < releaseTime c -> t < releaseTime c).
  { intros Hlt. specialize (Hmin (releaseTime c - now) Hin).
    unfold pending in Hmin. lia. }
  assert (Hen : releaseTime c <= now -> now < endTime c -> t < endTime c).
  { intros Hle Hlt. specialize (Hmin (endTime c - now) Hin).
    unfold pending in Hmin. lia. }
  unfold getChallengeStatus. cbn [tick currentTime].
  destruct (isCompleted c); [ reflexivity | ].
  destruct (isPermanent (type c)); decide_tests; simpl;
    (reflexivity || lia).
Qed.

Lemma statuses_stable_before_boundary_witness :
  let a := sampleChallenge 0 10000 TEMPORARY false 5 in
  let b := sampleChallenge 20000 30000 RACE false 1 in
  getChallengeStatus (tick (stateAt 0 None) 9999) b
  = getChallengeStatus (tick (stateAt 0 None) 5000) b.
Proof.
  intros a b.
  apply (statuses_stable_before_boundary (stateAt 0 None) [a; b] 5000 5000
           9999 b).
  - reflexivity.
  - right. left.
  - lia.
  - simpl. lia.
Defined.

(** X6: a delay is handed to [setTimeout] only when an event is loaded,
    and it is more than one second; some challenge has its release or its
    end exactly one second before the delay elapses, and unless that
    challenge is completed, or is a permanent one past its release, its
    status at every instant at least [delay] milliseconds after [now]
    differs from its status at [now]. *)
Theorem refresh_delay_passes_boundary :
  forall (st : State) (now delay : Z),
    autoRefresh st now = Some delay ->
    1000 < delay
    /\ exists ev c,
         eventDetails st = Some ev
         /\ c ∈ challenges ev
         /\ pending now c (delay - 1000)
         /\ (isCompleted c = false ->
             now < releaseTime c \/ type c <> PERMANENT ->
             forall t, now + delay <= t ->
               status (getChallengeStatus (tick st t) c)
               <> status (getChallengeStatus (tick st now) c)).
Proof.
  intros st now delay. unfold autoRefresh.
  destruct (eventDetails st) as [ ev | ]; [ | discriminate ].
  destruct (nextBoundary (challenges ev) now) as [ d | ] eqn:Hnb;
    [ | discriminate ].
  intros [= <-].
  destruct (nextBoundary_Some_inv _ _ _ Hnb) as ((c & Hin & Hp) & _).
  pose proof (pending_positive _ _ _ Hp) as Hpos.
  split; [ lia | ].
  exists ev, c. replace (d + 1000 - 1000) with d by lia.
  repeat split; try assumption.
  intros Hdone Hkind t Ht. rewrite !status_at. unfold classify. rewrite Hdone.
  unfold pending in Hp.
  destruct Hkind as [ Hup | Hty ].
  - destruct (isPermanent (type c)); decide_tests; simpl;
      try discriminate; lia.
  - apply isPermanent_false in Hty. rewrite Hty.
    decide_tests; simpl; try discriminate; lia.
Qed.

Lemma refresh_delay_passes_boundary_witness :
  let c := sampleChallenge 0 10000 TEMPORARY false 5 in
  let st := stateAt 4000 (Some (sampleEvent [c])) in
  1000 < 7000
  /\ exists ev c',
       eventDetails st = Some ev
       /\ c' ∈ challenges ev
       /\ pending 4000 c' (7000 - 1000)
       /\ (isCompleted c' = false ->
           4000 < releaseTime c' \/ type c' <> PERMANENT ->
           forall t, 4000 + 7000 <= t ->
             status (getChallengeStatus (tick st t) c')
             <> status (getChallengeStatus (tick st 4000) c')).
Proof.
  intros c st.
  apply (refresh_delay_passes_boundary st 4000 7000). reflexivity.
Defined.

(** X7: a boundary is missed when the effect runs at the very end time of a
    challenge: if no challenge has a release or an end after [now], no
    refresh is scheduled, although a challenge that is neither completed
    nor permanent and ends exactly at [now] (after its release) is active
    at [now] and expired at every later instant. *)
Theorem no_refresh_at_exact_end :
  forall (st : State) (cs : list Challenge) (now : Z),
    (forall c, c ∈ cs -> releaseTime c <= now /\ endTime c <= now) ->
    nextBoundary cs now = None
    /\ forall c t,
         c ∈ cs -> isCompleted c = false -> type c <> PERMANENT ->
         endTime c = now -> now < t ->
         status (getChallengeStatus (tick st now) c) = "active"
         /\ status (getChallengeStatus (tick st t) c) = "expired".
Proof.
  intros st cs now Hall.
  split; [ apply nextBoundary_None_iff; exact Hall | ].
  intros c t Hin Hdone Hty Hend Ht.
  destruct (Hall c Hin) as (Hr & _). apply isPermanent_false in Hty.
  rewrite !status_at. unfold classify. rewrite Hdone, Hty.
  split; decide_tests; simpl; (reflexivity || lia).
Qed.

Lemma no_refresh_at_exact_end_witness :
  let c := sampleChallenge 0 10000 RACE false 5 in
  nextBoundary [c] 10000 = None
  /\ status (getChallengeStatus (tick (stateAt 0 None) 10000) c) = "active"
  /\ status (getChallengeStatus (tick (stateAt 0 None) 10001) c) = "expired".
Proof.
  intros c.
  assert (Hall : forall c', c' ∈ [c] ->
                   releaseTime c' <= 10000 /\ endTime c' <= 10000).
  { intros c' Hin. apply list_elem_of_singleton in Hin as ->. simpl. lia. }
  destruct (no_refresh_at_exact_end (stateAt 0 None) [c] 10000 Hall)
    as (Hnone & Hst).
  split; [ exact Hnone | ].
  apply (Hst c 10001).
  - left.
  - reflexivity.
  - simpl; discriminate.
  - reflexivity.
  - lia.
Defined.

(** * Further properties of getFilterCounts *)

Lemma zeroCounts_lookup k :
  zeroCounts !! k
  = if bool_decide (k ∈ ["all"; "active"; "upcoming"; "completed"; "expired"])
    then Some 0 else None.
Proof.
  unfold zeroCounts. rewrite !lookup_insert, lookup_empty.
  destruct (decide (k ∈ ["all"; "active"; "upcoming"; "completed"; "expired"]))
    as [ Hin | Hnin ].
  - rewrite bool_decide_true by assumption.
    repeat (destruct (decide _); [ reflexivity | ]).
    rewrite !elem_of_cons, elem_of_nil in Hin. intuition congruence.
  - rewrite bool_decide_false by assumption.
    rewrite !elem_of_cons, elem_of_nil in Hnin.
    repeat (destruct (decide _) as [ <- | ]; [ exfalso; tauto | ]).
    reflexivity.
Qed.

(** X8: the counts object always has exactly the five keys it starts with
    ([all] and the four statuses), every count is non-negative, and the
    count under [all] is the sum of the four others. *)
Theorem filterCounts_keys :
  forall (st : State),
    (forall k, is_Some (getFilterCounts st !! k)
               <-> k ∈ ["all"; "active"; "upcoming"; "completed"; "expired"])
    /\ exists n a u c e,
         getFilterCounts st !! "all" = Some n
         /\ getFilterCounts st !! "active" = Some a
         /\ getFilterCounts st !! "upcoming" = Some u
         /\ getFilterCounts st !! "completed" = Some c
         /\ getFilterCounts st !! "expired" = Some e
         /\ 0 <= a /\ 0 <= u /\ 0 <= c /\ 0 <= e
         /\ n = a + u + c + e.
Proof.
  intros st.
  assert (Hlook : forall k,
             getFilterCounts st !! k
             = (fun n => n + ((if String.eqb "all" k
                               then Z.of_nat (length (loadedChallenges st))
                               else 0)
                              + countStatus st k (loadedChallenges st)))
               <$> (zeroCounts !! k)).
  { intros k. unfold getFilterCounts, loadedChallenges.
    destruct (eventDetails st) as [ ev | ]; [ apply filterCounts_fold | ].
    cbn [length countStatus].
    destruct (String.eqb "all" k), (zeroCounts !! k); simpl; f_equal; lia. }
  assert (Hpos : forall k cs, 0 <= countStatus st k cs).
  { intros k cs. induction cs as [ | c cs IH ]; cbn [countStatus]; [ lia | ].
    destruct (String.eqb _ k); lia. }
  split.
  - intros k. rewrite Hlook, zeroCounts_lookup. rewrite fmap_is_Some.
    case_bool_decide; split; intros H'; try assumption.
    + eexists; reflexivity.
    + destruct H' as (? & [=]).
    + contradiction.
  - pose proof (countStatus_partition st (loadedChallenges st)) as Hsum.
    eexists _, _, _, _, _. rewrite !Hlook, countStatus_all.
    repeat (split; [ reflexivity | ]).
    repeat (split; [ cbn [String.eqb Ascii.eqb Bool.eqb];
                     pose proof (Hpos "active" (loadedChallenges st));
                     pose proof (Hpos "upcoming" (loadedChallenges st));
                     pose proof (Hpos "completed" (loadedChallenges st));
                     pose proof (Hpos "expired" (loadedChallenges st)); lia | ]).
    cbn [String.eqb Ascii.eqb Bool.eqb]. lia.
Qed.

(** * Properties of getFilteredChallenges *)

Section ArraySort.

Context {A : Type} (compare : A -> A -> Z).

Hypothesis compare_total :
  forall a b, compare a b <= 0 \/ compare b a <= 0.
Hypothesis compare_trans :
  forall a b c, compare a b <= 0 -> compare b c <= 0 -> compare a c <= 0.

Lemma insertSorted_Permutation x l : insertSorted compare x l ≡ₚ x :: l.
Proof.
  induction l as [ | y l IH ]; simpl; [ reflexivity | ].
  destruct (compare x y <=? 0); [ reflexivity | ].
  rewrite IH. apply Permutation_swap.
Qed.

Lemma Array_sort_Permutation l : Array_sort compare l ≡ₚ l.
Proof.
  induction l as [ | x l IH ]; simpl; [ reflexivity | ].
  rewrite insertSorted_Permutation, IH. reflexivity.
Qed.

Lemma insertSorted_sorted x l :
  StronglySorted (fun a b => compare a b <= 0) l ->
  StronglySorted (fun a b => compare a b <= 0) (insertSorted compare x l).
Proof.
  induction 1 as [ | y l Hs IH Hall ]; simpl.
  - repeat constructor.
  - destruct (Z.leb_spec (compare x y) 0) as [ Hle | Hgt ].
    + constructor; [ constructor; assumption | ].
      constructor; [ assumption | ].
      eapply Forall_impl; [ exact Hall | ].
      intros z Hz. simpl in Hz. eapply compare_trans; eassumption.
    + constructor; [ assumption | ].
      rewrite insertSorted_Permutation. constructor; [ | assumption ].
      destruct (compare_total x y); [ lia | assumption ].
Qed.

Lemma Array_sort_sorted l :
  StronglySorted (fun a b => compare a b <= 0) (Array_sort compare l).
Proof.
  induction l as [ | x l IH ]; simpl; [ constructor | ].
  apply insertSorted_sorted, IH.
Qed.

(** Sorting an array that is already in order leaves it as it is. *)
Lemma Array_sort_fixed l :
  StronglySorted (fun a b => compare a b <= 0) l ->
  Array_sort compare l = l.
Proof.
  induction 1 as [ | x l Hs IH Hall ]; simpl; [ reflexivity | ].
  rewrite IH. destruct Hall as [ | y l Hxy _ ]; simpl; [ reflexivity | ].
  destruct (Z.leb_spec (compare x y) 0); [ reflexivity | lia ].
Qed.

End ArraySort.

Lemma priorityOf_classify st c :
  priorityOf st c
  = match classify c (currentTime st) with
    | active => 0 | upcoming => 1 | completed => 2 | expired => 3
    end.
Proof.
  unfold priorityOf. rewrite status_classify.
  destruct (classify c (currentTime st)); reflexivity.
Qed.

Lemma compareChallenges_le st a b :
  compareChallenges st a b <= 0
  <-> priorityOf st a < priorityOf st b
      \/ (priorityOf st a = priorityOf st b
          /\ releaseTime a <= releaseTime b).
Proof.
  unfold compareChallenges.
  destruct (Z.eqb_spec (priorityOf st a) (priorityOf st b)); simpl; lia.
Qed.

Lemma compareChallenges_total st a b :
  compareChallenges st a b <= 0 \/ compareChallenges st b a <= 0.
Proof. rewrite !compareChallenges_le. lia. Qed.

Lemma compareChallenges_trans st a b c :
  compareChallenges st a b <= 0 -> compareChallenges st b c <= 0 ->
  compareChallenges st a c <= 0.
Proof. rewrite !compareChallenges_le. lia. Qed.

(** X9: the list shown is in order: of two challenges of the result, the
    earlier one has the smaller status priority (active 0, upcoming 1,
    completed 2, expired 3; the fallback 4 is never used) or, at equal
    priority, a release time that is not later. *)
Theorem filtered_challenges_sorted :
  forall (toLowerCase trim : string -> string) (st : State),
    StronglySorted
      (fun a b =>
         priorityOf st a < priorityOf st b
         \/ (priorityOf st a = priorityOf st b
             /\ releaseTime a <= releaseTime b))
      (getFilteredChallenges toLowerCase trim st)
    /\ forall c,
         (priorityOf st c = 0 <-> status (getChallengeStatus st c) = "active")
         /\ (priorityOf st c = 1
             <-> status (getChallengeStatus st c) = "upcoming")
         /\ (priorityOf st c = 2
             <-> status (getChallengeStatus st c) = "completed")
         /\ (priorityOf st c = 3
             <-> status (getChallengeStatus st c) = "expired").
Proof.
  intros toLowerCase trim st. split.
  - unfold getFilteredChallenges.
    destruct (eventDetails st) as [ ev | ]; [ | constructor ].
    cbv zeta.
    match goal with
    | |- StronglySorted _ (Array_sort _ ?l) =>
        pose proof (Array_sort_sorted (compareChallenges st)
                      (compareChallenges_total st)
                      (compareChallenges_trans st) l) as Hs;
        induction Hs as [ | x l' Hs IH Hall ]; constructor;
          [ exact IH | ]
    end.
    eapply Forall_impl; [ exact Hall | ].
    intros y Hy. apply compareChallenges_le. exact Hy.
  - intros c. rewrite priorityOf_classify, status_classify.
    destruct (classify c (currentTime st)); simpl;
      repeat split; intros; (reflexivity || discriminate || lia).
Qed.

(** What [String.prototype.includes] computes: [sub] occurs somewhere in
    [s]. *)
Lemma prefix_iff sub :
  forall s, String.prefix sub s = true <-> exists post, s = sub +:+ post.
Proof.
  induction sub as [ | a sub IH ]; intros s.
  - split; [ intros _; exists s; reflexivity | destruct s; reflexivity ].
  - destruct s as [ | b s ].
    + split; [ discriminate | intros (post & [=]) ].
    + cbn [String.prefix].
      destruct (ascii_dec a b) as [ <- | Hne ].
      * rewrite IH. split; intros (post & H); exists post.
        -- simpl. rewrite H. reflexivity.
        -- simpl in H. injection H as H. exact H.
      * split; [ discriminate | intros (post & H) ].
        simpl in H. injection H as Hb _. congruence.
Qed.

Lemma String_includes_iff sub :
  forall s,
    String_includes s sub = true
    <-> exists pre post, s = pre +:+ sub +:+ post.
Proof.
  induction s as [ | ch s IH ]; cbn [String_includes].
  - rewrite prefix_iff. split.
    + intros (post & H). exists "", post. exact H.
    + intros (pre & post & H). destruct pre; [ | discriminate H ].
      exists post. exact H.
  - rewrite orb_true_iff, prefix_iff, IH. split.
    + intros [ (post & H) | (pre & post & H) ].
      * exists "", post. exact H.
      * exists (String ch pre), post. simpl. rewrite H. reflexivity.
    + intros (pre & post & H). destruct pre as [ | ch' pre ].
      * left. exists post. exact H.
      * right. simpl in H. injection H as _ H. exists pre, post. exact H.
Qed.

Lemma elem_of_List_filter {A} (f : A -> bool) (l : list A) (x : A) :
  x ∈ List.filter f l <-> x ∈ l /\ f x = true.
Proof. rewrite !list_elem_of_In. apply filter_In. Qed.

(** The search predicate holds exactly when the lower-cased search term
    occurs in the lower-cased name of the game or of one of the
    categories. *)
Lemma matchesSearch_iff toLowerCase st c :
  matchesSearch toLowerCase st c = true
  <-> (exists pre post,
         toLowerCase (game_name (game c))
         = pre +:+ toLowerCase (searchTerm st) +:+ post)
      \/ (exists cat pre post,
            cat ∈ categories c
            /\ toLowerCase (category_name cat)
               = pre +:+ toLowerCase (searchTerm st) +:+ post).
Proof.
  unfold matchesSearch.
  rewrite orb_true_iff, String_includes_iff, existsb_exists.
  split; (intros [ H | H ]; [ left; exact H | right ]).
  - destruct H as (cat & Hin & H). apply String_includes_iff in H.
    destruct H as (pre & post & H). exists cat, pre, post.
    split; [ apply list_elem_of_In; exact Hin | exact H ].
  - destruct H as (cat & pre & post & Hin & H). exists cat.
    split; [ apply list_elem_of_In; exact Hin | ].
    apply String_includes_iff. exists pre, post. exact H.
Qed.

(** X10: a challenge is shown exactly when it belongs to the loaded event,
    passes the status filter (the filter is [all], or the status of the
    challenge is the filter) and passes the search: the trimmed search term
    is empty, or the lower-cased search term occurs as a substring of the
    lower-cased name of the game or of one of the categories of the
    challenge.  Nothing is shown before the event is loaded. *)
Theorem filtered_challenges_membership :
  forall (toLowerCase trim : string -> string) (st : State) (c : Challenge),
    c ∈ getFilteredChallenges toLowerCase trim st
    <-> c ∈ loadedChallenges st
        /\ (statusFilter st = FilterAll
            \/ status (getChallengeStatus st c) = filterName (statusFilter st))
        /\ (trim (searchTerm st) = ""
            \/ (exists pre post,
                  toLowerCase (game_name (game c))
                  = pre +:+ toLowerCase (searchTerm st) +:+ post)
            \/ (exists cat pre post,
                  cat ∈ categories c
                  /\ toLowerCase (category_name cat)
                     = pre +:+ toLowerCase (searchTerm st) +:+ post)).
Proof.
  intros toLowerCase trim st c.
  rewrite <- matchesSearch_iff.
  unfold getFilteredChallenges, loadedChallenges.
  destruct (eventDetails st) as [ ev | ].
  2: { split; [ intros H; inversion H | intros (H & _); inversion H ]. }
  cbv zeta. rewrite Array_sort_Permutation.
  assert (Hall : isFilterAll (statusFilter st) = true
                 <-> statusFilter st = FilterAll).
  { destruct (statusFilter st); simpl; split; congruence. }
  unfold hasSearch.
  destruct (String.eqb_spec (trim (searchTerm st)) "") as [ Htrim | Htrim ];
    destruct (isFilterAll (statusFilter st)) eqn:Hf; simpl;
    rewrite ?elem_of_List_filter; unfold matchesFilter;
    rewrite ?String.eqb_eq; intuition congruence.
Qed.

Lemma length_filter_status st cs :
  Z.of_nat (length (List.filter (matchesFilter st) cs))
  = countStatus st (filterName (statusFilter st)) cs.
Proof.
  induction cs as [ | c cs IH ]; [ reflexivity | ].
  cbn [List.filter countStatus]. unfold matchesFilter at 1.
  destruct (String.eqb _ _); cbn [length]; lia.
Qed.

(** X11: without a search term, the number of challenges shown is the count
    displayed on the button of the selected filter. *)
Theorem filter_badge_matches_list :
  forall (toLowerCase trim : string -> string) (st : State),
    trim (searchTerm st) = "" ->
    getFilterCounts st !! filterName (statusFilter st)
    = Some (Z.of_nat (length (getFilteredChallenges toLowerCase trim st))).
Proof.
  intros toLowerCase trim st Htrim.
  unfold getFilterCounts, getFilteredChallenges, hasSearch.
  rewrite Htrim. cbn [String.eqb negb].
  destruct (eventDetails st) as [ ev | ].
  - cbv zeta. rewrite Array_sort_Permutation, filterCounts_fold.
    destruct (statusFilter st) eqn:Hf; cbn [isFilterAll negb filterName];
      rewrite ?length_filter_status, ?Hf;
      cbn [filterName]; rewrite ?countStatus_all;
      rewrite zeroCounts_lookup; simpl; f_equal; lia.
  - rewrite zeroCounts_lookup.
    destruct (statusFilter st); reflexivity.
Qed.

Lemma filter_badge_matches_list_witness :
  let cs := [sampleChallenge 0 10 TEMPORARY true 5;
             sampleChallenge 0 10 RACE false 3;
             sampleChallenge 2 10 PERMANENT false 1] in
  let st := stateAt 5 (Some (sampleEvent cs)) in
  getFilterCounts st !! "active"
  = Some (Z.of_nat (length (getFilteredChallenges asciiLower (fun s => s) st))).
Proof.
  intros cs st.
  apply (filter_badge_matches_list asciiLower (fun s => s) st). reflexivity.
Defined.

Lemma countStatus_Permutation st k cs cs' :
  cs ≡ₚ cs' -> countStatus st k cs = countStatus st k cs'.
Proof.
  induction 1; cbn [countStatus]; lia.
Qed.

(** X12: the in-place sort does not disturb the rest of the view: after a
    call of [getFilteredChallenges], the array held in the state has the
    same elements, the five challenge counters of the statistics and the
    filter counts computed from the state are unchanged, and calling
    [getFilteredChallenges] again gives the same list. *)
Theorem filtering_preserves_view :
  forall (toLowerCase trim : string -> string) (st : State),
    let st' := stateAfterFiltering trim st in
    loadedChallenges st' ≡ₚ loadedChallenges st
    /\ totalChallenges (stats st') = totalChallenges (stats st)
    /\ completedChallenges (stats st') = completedChallenges (stats st)
    /\ activeChallenges (stats st') = activeChallenges (stats st)
    /\ upcomingChallenges (stats st') = upcomingChallenges (stats st)
    /\ expiredChallenges (stats st') = expiredChallenges (stats st)
    /\ getFilterCounts st' = getFilterCounts st
    /\ getFilteredChallenges toLowerCase trim st'
       = getFilteredChallenges toLowerCase trim st.
Proof.
  intros toLowerCase trim st st'. subst st'. unfold stateAfterFiltering.
  destruct (eventDetails st) as [ ev | ] eqn:Hev;
    [ | repeat split; reflexivity ].
  destruct (negb (isFilterAll (statusFilter st)) || hasSearch trim st)
    eqn:Hcond; [ repeat split; reflexivity | ].
  apply orb_false_elim in Hcond as (Hall & Hsearch).
  pose proof (Array_sort_Permutation (compareChallenges st) (challenges ev))
    as Hperm.
  split; [ unfold loadedChallenges; rewrite Hev; exact Hperm | ].
  assert (Hcount : forall k,
             countStatus st k (Array_sort (compareChallenges st) (challenges ev))
             = countStatus st k (challenges ev)).
  { intros k. apply countStatus_Permutation, Hperm. }
  unfold stats. rewrite Hev. cbn [eventDetails challenges currentTime].
  rewrite !stats_fold.
  cbn [totalChallenges completedChallenges totalPoints earnedPoints
       activeChallenges upcomingChallenges expiredChallenges].
  rewrite !Hcount, (Permutation_length Hperm).
  repeat (split; [ reflexivity | ]).
  split.
  - apply map_eq. intros k.
    unfold getFilterCounts. rewrite Hev. cbn [eventDetails challenges].
    change (filterCounts_step _) with (filterCounts_step st).
    rewrite !filterCounts_fold, Hcount, (Permutation_length Hperm).
    reflexivity.
  - unfold getFilteredChallenges, hasSearch in *. rewrite Hev.
    cbn [eventDetails challenges statusFilter searchTerm] in *.
    rewrite Hall, Hsearch. cbv zeta.
    change (compareChallenges _) with (compareChallenges st).
    apply Array_sort_fixed, Array_sort_sorted.
    + apply compareChallenges_total.
    + apply compareChallenges_trans.
Qed.

(** * Keys built from the route parameter *)

Lemma append_inv_tail (a b t : string) : a +:+ t = b +:+ t -> a = b.
Proof.
  intros H.
  apply (f_equal list_ascii_of_string) in H.
  assert (Happ : forall x y, list_ascii_of_string (x +:+ y)
                   = (list_ascii_of_string x ++ list_ascii_of_string y)%list).
  { intros x y. induction x as [ | ch x IH ]; simpl; [ reflexivity | ].
    rewrite IH. reflexivity. }
  rewrite !Happ in H. apply app_inv_tail in H.
  rewrite <- (string_of_list_ascii_of_string a),
          <- (string_of_list_ascii_of_string b), H.
  reflexivity.
Qed.

(** X13: two different event ids never share a local-storage entry: the
    cache key determines the id. *)
Theorem cacheKey_injective :
  forall (id1 id2 : string), cacheKey id1 = cacheKey id2 -> id1 = id2.
Proof.
  intros id1 id2 H. unfold cacheKey in H.
  simpl in H. injection H as H.
  exact (append_inv_tail id1 id2 "-details" H).
Qed.

Lemma cacheKey_injective_witness :
  cacheKey "12" = "event-12-details" /\ "12" = "12".
Proof.
  split; [ reflexivity | ].
  apply (cacheKey_injective "12" "12"). reflexivity.
Defined.
